(** * ts_aos_analysis: schema builder and timing extractor

    A shallow embedding of
      - python/lsst/ts/aos/analysis/blockUtils.py
          (add_property, build_configuration_schema)
      - python/lsst/ts/aos/analysis/butlerUtils.py
          (get_task_metadata, get_timing_from_metadata)
    and the properties of these functions.

    Python values are an inductive type, a dict is an association list in
    insertion order, and a raised exception is the [Err] branch of [result]. *)

From Stdlib Require Import String Ascii List ZArith Lia Bool.
From Stdlib Require Import DecimalString OrderedTypeEx.
Import ListNotations.

Local Open Scope list_scope.
Local Open Scope string_scope.

(** ** Exceptions and results *)

(** The exceptions the two modules can raise from their own statements.
    [KeyError k] carries the missing key; [ExternalError] stands for
    whatever the data-access client raises. *)
Inductive pyerr : Type :=
| KeyError (key : string)
| TypeError
| AttributeError
| ValueError
| IndexError
| ExternalError (msg : string).

Inductive result (A : Type) : Type :=
| Ok (a : A)
| Err (e : pyerr).

Arguments Ok {A} a.
Arguments Err {A} e.

Definition bind {A B : Type} (r : result A) (k : A -> result B) : result B :=
  match r with
  | Ok a => k a
  | Err e => Err e
  end.

Notation "x <- c ;; k" := (bind c (fun x => k))
  (at level 61, c at next level, right associativity).
Notation "' p <- c ;; k" := (bind c (fun x => let 'p := x in k))
  (at level 61, p pattern, c at next level, right associativity).

Definition is_ok {A : Type} (r : result A) : bool :=
  match r with Ok _ => true | Err _ => false end.

(** ** Python values *)

(** A dict keeps its insertion order, which [items()] follows, so it is a
    list of key/value pairs.  A float carries the text Python prints for
    it: the modules only ever format such a value. *)
#[warnings="-register-all"]
Inductive pyval : Type :=
| PyNone
| PyBool (b : bool)
| PyInt (z : Z)
| PyFloat (text : string)
| PyStr (s : string)
| PyList (l : list pyval)
| PyDict (d : list (string * pyval)).

(** An induction principle for values that reaches the members of lists
    and dicts. *)
Section PyvalInduction.
Variable P : pyval -> Prop.
Hypothesis HNone : P PyNone.
Hypothesis HBool : forall b, P (PyBool b).
Hypothesis HInt : forall z, P (PyInt z).
Hypothesis HFloat : forall t, P (PyFloat t).
Hypothesis HStr : forall s, P (PyStr s).
Hypothesis HList : forall l, Forall P l -> P (PyList l).
Hypothesis HDict : forall d, Forall (fun kv => P (snd kv)) d -> P (PyDict d).

Fixpoint pyval_nested_ind (v : pyval) : P v :=
  match v with
  | PyNone => HNone
  | PyBool b => HBool b
  | PyInt z => HInt z
  | PyFloat t => HFloat t
  | PyStr s => HStr s
  | PyList l =>
      HList l
        ((fix go (l : list pyval) : Forall P l :=
            match l with
            | [] => Forall_nil _
            | x :: tl => Forall_cons _ (pyval_nested_ind x) (go tl)
            end) l)
  | PyDict d =>
      HDict d
        ((fix go (d : list (string * pyval)) : Forall (fun kv => P (snd kv)) d :=
            match d with
            | [] => Forall_nil _
            | (k, x) :: tl =>
                Forall_cons (P := fun kv => P (snd kv)) (k, x)
                  (pyval_nested_ind x) (go tl)
            end) d)
  end.
End PyvalInduction.

Module Dict.

(** [d.get(k)]: the value stored under [k], if any. *)
Fixpoint lookup {V : Type} (k : string) (d : list (string * V)) : option V :=
  match d with
  | [] => None
  | (k', v) :: tl => if String.eqb k' k then Some v else lookup k tl
  end.

(** [k in d] *)
Definition mem {V : Type} (k : string) (d : list (string * V)) : bool :=
  match lookup k d with Some _ => true | None => false end.

(** [d[k]], raising [KeyError] when the key is absent. *)
Definition getitem {V : Type} (k : string) (d : list (string * V)) : result V :=
  match lookup k d with
  | Some v => Ok v
  | None => Err (KeyError k)
  end.

(** [d[k] = v]: an existing key keeps its place, a new one goes last. *)
Fixpoint setitem {V : Type} (k : string) (v : V) (d : list (string * V))
  : list (string * V) :=
  match d with
  | [] => [(k, v)]
  | (k', v') :: tl =>
      if String.eqb k' k then (k', v) :: tl else (k', v') :: setitem k v tl
  end.

(** Continuation form of [lookup], with the continuation outside the
    recursion: a recursive function may then be called on the value
    found.  [lookup_with_spec] relates it to [lookup]. *)
Definition lookup_with {V A : Type} (k : string) (found : V -> A) (missing : A)
  : list (string * V) -> A :=
  fix go (d : list (string * V)) : A :=
    match d with
    | [] => missing
    | (k', v) :: tl => if String.eqb k' k then found v else go tl
    end.

End Dict.

(** ** Textual representation of values: [str] and [repr] *)

Definition str_of_int (z : Z) : string := NilZero.string_of_int (Z.to_int z).

Definition hex_digit (n : nat) : ascii :=
  match n with
  | 0 => "0" | 1 => "1" | 2 => "2" | 3 => "3" | 4 => "4" | 5 => "5" | 6 => "6"
  | 7 => "7" | 8 => "8" | 9 => "9" | 10 => "a" | 11 => "b" | 12 => "c"
  | 13 => "d" | 14 => "e" | _ => "f"
  end%char.

Fixpoint str_contains (c : ascii) (s : string) : bool :=
  match s with
  | EmptyString => false
  | String c' tl => Ascii.eqb c c' || str_contains c tl
  end.

(** One character of [repr] of a str delimited by [quote].  Bytes from 128
    up are the UTF-8 encoding of printable text and stay as they are. *)
Definition repr_char (quote : ascii) (c : ascii) : string :=
  let n := nat_of_ascii c in
  if Ascii.eqb c quote || Ascii.eqb c "\"%char then String "\"%char (String c "")
  else if Nat.eqb n 9 then "\t"
  else if Nat.eqb n 10 then "\n"
  else if Nat.eqb n 13 then "\r"
  else if Nat.ltb n 32 || Nat.eqb n 127 then
    String "\"%char (String "x"%char
      (String (hex_digit (n / 16)) (String (hex_digit (n mod 16)) "")))
  else String c "".

Fixpoint repr_chars (quote : ascii) (s : string) : string :=
  match s with
  | EmptyString => ""
  | String c tl => repr_char quote c ++ repr_chars quote tl
  end.

Definition dquote : ascii := ascii_of_nat 34.
Definition squote : ascii := ascii_of_nat 39.

(** [repr] of a str: single quotes, unless the text has a single quote and
    no double quote. *)
Definition repr_str (s : string) : string :=
  let q := if str_contains squote s && negb (str_contains dquote s)
           then dquote else squote in
  String q (repr_chars q s ++ String q "").

Definition sep_join (parts : list string) : string := String.concat ", " parts.

Fixpoint py_repr (v : pyval) : string :=
  match v with
  | PyNone => "None"
  | PyBool true => "True"
  | PyBool false => "False"
  | PyInt z => str_of_int z
  | PyFloat text => text
  | PyStr s => repr_str s
  | PyList l => "[" ++ sep_join (List.map py_repr l) ++ "]"
  | PyDict d =>
      "{" ++ sep_join (List.map (fun kv => repr_str (fst kv) ++ ": " ++ py_repr (snd kv)) d)
          ++ "}"
  end.

(** [str(v)], which is what an f-string field [{v}] formats to. *)
Definition py_str (v : pyval) : string :=
  match v with
  | PyStr s => s
  | _ => py_repr v
  end.

(** [a == b] where [b] is a str literal. *)
Definition eq_str (a : pyval) (b : string) : bool :=
  match a with
  | PyStr s => String.eqb s b
  | _ => false
  end.

(** ** blockUtils.py *)

(** The line feed ending every line of the document. *)
Definition nl : string := String (ascii_of_nat 10) "".

(** ['  ' * indent_level], for the non-negative levels the module uses. *)
Fixpoint spaces (indent_level : nat) : string :=
  match indent_level with
  | O => ""
  | S n => "  " ++ spaces n
  end.

(** Runs [f] over the entries of a mapping in order and concatenates the
    fragments, as a loop [for k, v in d.items(): out += f(k, v)] does; the
    first exception ends the loop. *)
Definition concat_items {V : Type} (f : string -> V -> result string)
  : list (string * V) -> result string :=
  fix go (d : list (string * V)) : result string :=
    match d with
    | [] => Ok ""
    | (k, v) :: tl =>
        s <- f k v ;;
        r <- go tl ;;
        Ok (s ++ r)
    end.

(** The name, description and type lines (source lines 42-44). *)
Definition head_lines (indent prop_name : string) (description type : pyval) : string :=
  indent ++ prop_name ++ ":" ++ nl
  ++ indent ++ "  description: " ++ py_str description ++ nl
  ++ indent ++ "  type: " ++ py_str type ++ nl.

(** The text after [default: ] (source lines 48-50). *)
Definition default_text (type default_value : pyval) : string :=
  if eq_str type "string"
  then String dquote (py_str default_value ++ String dquote "")
  else py_str default_value.

(** The [default:] line (source lines 47-51). *)
Definition default_lines (indent : string) (type : pyval) (d : list (string * pyval))
  : string :=
  match Dict.lookup "default" d with
  | Some default_value =>
      indent ++ "  default: " ++ default_text type default_value ++ nl
  | None => ""
  end.

(** The optional [minimum:] / [maximum:] line of an array's items. *)
Definition bound_line (indent : string) (k : string) (it : list (string * pyval))
  : string :=
  match Dict.lookup k it with
  | Some b => indent ++ "    " ++ k ++ ": " ++ py_str b ++ nl
  | None => ""
  end.

(** The [items:] block (source lines 54-62).  Only a dict can be indexed
    by ['type']. *)
Definition items_lines (indent : string) (type : pyval) (d : list (string * pyval))
  : result string :=
  if eq_str type "array" then
    match Dict.lookup "items" d with
    | Some (PyDict item_details) =>
        ty <- Dict.getitem "type" item_details ;;
        Ok (indent ++ "  items:" ++ nl
            ++ indent ++ "    type: " ++ py_str ty ++ nl
            ++ bound_line indent "minimum" item_details
            ++ bound_line indent "maximum" item_details)
    | Some _ => Err TypeError
    | None => Ok ""
    end
  else Ok "".

(** [add_property(prop_name, prop_details, indent_level)].  The lookup of
    ['properties'] is written with [Dict.lookup_with], so that the
    recursive call is on a part of [prop_details];
    [add_property_unfold] gives the equation with a plain lookup. *)
Fixpoint add_property (prop_name : string) (prop_details : pyval) (indent_level : nat)
  {struct prop_details} : result string :=
  match prop_details with
  | PyDict d =>
      let indent := spaces indent_level in
      description <- Dict.getitem "description" d ;;
      type <- Dict.getitem "type" d ;;
      items <- items_lines indent type d ;;
      nested <-
        (if eq_str type "object" then
           Dict.lookup_with "properties"
             (fun props =>
                match props with
                | PyDict ps =>
                    r <- concat_items
                           (fun nested_name nested_details =>
                              add_property nested_name nested_details (indent_level + 2))
                           ps ;;
                    Ok (indent ++ "  properties:" ++ nl ++ r)
                | _ => Err AttributeError
                end)
             (Ok "") d
         else Ok "") ;;
      Ok (head_lines indent prop_name description type
          ++ default_lines indent type d ++ items ++ nested)
  | _ => Err TypeError
  end.

(** The [properties:] block (source lines 64-67).  Only a dict has
    [items()]. *)
Definition properties_lines (indent_level : nat) (type : pyval)
  (d : list (string * pyval)) : result string :=
  if eq_str type "object" then
    match Dict.lookup "properties" d with
    | Some (PyDict ps) =>
        r <- concat_items
               (fun nested_name nested_details =>
                  add_property nested_name nested_details (indent_level + 2))
               ps ;;
        Ok (spaces indent_level ++ "  properties:" ++ nl ++ r)
    | Some _ => Err AttributeError
    | None => Ok ""
    end
  else Ok "".

(** The fixed header (source lines 89-95). *)
Definition schema_header (block_number : Z) : string :=
  "$schema: http://json-schema.org/draft-07/schema#" ++ nl
  ++ "title: BLOCK-" ++ str_of_int block_number ++ " configuration" ++ nl
  ++ "description: Configuration for BLOCK-" ++ str_of_int block_number ++ "." ++ nl
  ++ "type: object" ++ nl
  ++ "properties:" ++ nl.

(** [build_configuration_schema(block_number, properties)] *)
Definition build_configuration_schema (block_number : Z)
  (properties : list (string * pyval)) : result string :=
  r <- concat_items (fun prop_name prop_details => add_property prop_name prop_details 1)
         properties ;;
  Ok (schema_header block_number ++ r).

(** ** butlerUtils.py *)

(** *** The external collaborators *)

(** A task metadata record, as far as the module reads it: the array
    collection of its ['quantum'] entry ([v['quantum'].arrays], a mapping
    from array name to the list of its values; [None] when the record has
    no such entry) and the keys of its [metadata] mapping, in order.  The
    [...Utc] arrays hold timestamp text. *)
Record TaskMetadata : Type := mkTaskMetadata {
  quantum_arrays : option (list (string * list string));
  metadata_keys : list string
}.

(** The arguments of one [butler.get] call. *)
Record request : Type := mkRequest {
  dataset : string;
  exposure : Z;
  visit : Z;
  detector : Z;
  collections : string
}.

(** The data-access service: [Butler(path, collections=c)] opens a client
    or raises, and a client answers a [get] with a record or raises, the
    same way each time for the same request. *)
Class ButlerService : Type := {
  client : Type;
  Butler : string -> string -> result client;
  butler_get : client -> request -> result TaskMetadata
}.

(** Float arithmetic and the time parser: [Time_mjd text] is
    [Time(text).mjd]. *)
Class TimeOps : Type := {
  float : Type;
  Time_mjd : string -> result float;
  float_sub : float -> float -> float;
  float_mul : float -> float -> float;
  float_of_int : Z -> float;
  float_gt : float -> float -> bool
}.

(** *** Built-ins *)

(** [min(l)]: the first smallest element; [ValueError] on an empty list. *)
Definition py_min {A : Type} (lt : A -> A -> bool) (l : list A) : result A :=
  match l with
  | [] => Err ValueError
  | x :: tl => Ok (fold_left (fun m y => if lt y m then y else m) tl x)
  end.

(** [max(l)]: the first largest element; [ValueError] on an empty list. *)
Definition py_max {A : Type} (gt : A -> A -> bool) (l : list A) : result A :=
  match l with
  | [] => Err ValueError
  | x :: tl => Ok (fold_left (fun m y => if gt y m then y else m) tl x)
  end.

Definition str_lt (a b : string) : bool := String.ltb a b.
Definition str_gt (a b : string) : bool := String.ltb b a.

(** [s[:-n]], on text of one byte per character, as timestamps are. *)
Definition drop_last (n : nat) (s : string) : string :=
  String.substring 0 (String.length s - n) s.

(** [list(keys)[0]] *)
Definition first_key (keys : list string) : result string :=
  match keys with
  | [] => Err IndexError
  | k :: _ => Ok k
  end.

(** A [for x in l:] loop whose body updates the loop state [s] and may
    raise. *)
Fixpoint for_each {A S : Type} (l : list A) (body : A -> S -> result S) (s : S)
  : result S :=
  match l with
  | [] => Ok s
  | x :: tl => s' <- body x s ;; for_each tl body s'
  end.

(** *** get_task_metadata *)

(** Computations that call the service: the list of requests made so far
    is threaded through, and an exception ends the computation. *)
Definition io (A : Type) : Type := list request -> result A * list request.

Definition io_ret {A : Type} (a : A) : io A := fun log => (Ok a, log).

Definition io_bind {A B : Type} (m : io A) (k : A -> io B) : io B :=
  fun log =>
    match m log with
    | (Ok a, log') => k a log'
    | (Err e, log') => (Err e, log')
    end.

Definition io_lift {A : Type} (r : result A) : io A := fun log => (r, log).

Fixpoint io_for_each {A S : Type} (l : list A) (body : A -> S -> io S) (s : S)
  : io S :=
  match l with
  | [] => io_ret s
  | x :: tl => io_bind (body x s) (io_for_each tl body)
  end.

Section GetTaskMetadata.
Context {service : ButlerService}.

(** [butler.get(...)], recorded in the request log. *)
Definition fetch (butler : client) (rq : request) : io TaskMetadata :=
  fun log => (butler_get butler rq, (log ++ [rq])%list).

(** [get_task_metadata(butler_path, collection, task_list, visit_list,
    detector_list)] *)
Definition get_task_metadata (butler_path collection : string)
  (task_list : list string) (visit_list detector_list : list Z)
  : io (list (string * list TaskMetadata)) :=
  io_bind (io_lift (Butler butler_path collection)) (fun butler =>
  io_for_each task_list (fun task md =>
    io_bind
      (io_for_each visit_list (fun visit task_md =>
         io_for_each detector_list (fun detector task_md =>
           io_bind
             (fetch butler
                {| dataset := task ++ "_metadata";
                   exposure := visit;
                   visit := visit;
                   detector := detector;
                   collections := collection |})
             (fun r => io_ret (task_md ++ [r])%list))
           task_md)
         [])
      (fun task_md => io_ret (Dict.setitem task task_md md)))
    []).

End GetTaskMetadata.

(** *** get_timing_from_metadata *)

Definition suffix : string := "Utc".

(** Source lines 120-128: the start and stop of one record, or [None] where
    the source does [continue]. *)
Definition select_timing (arrs : list (string * list string))
  : result (option (string * string)) :=
  if Dict.mem "startUtc" arrs then
    a <- Dict.getitem ("prep" ++ suffix) arrs ;;
    start <- py_min str_lt a ;;
    b <- Dict.getitem ("end" ++ suffix) arrs ;;
    stop <- py_max str_gt b ;;
    Ok (Some (start, stop))
  else if Dict.mem "runQuantumStartCpuTime" arrs then
    a <- Dict.getitem ("runQuantumStart" ++ suffix) arrs ;;
    start <- py_min str_lt a ;;
    b <- Dict.getitem ("runQuantumEnd" ++ suffix) arrs ;;
    stop <- py_max str_gt b ;;
    Ok (Some (start, stop))
  else Ok None.

Section GetTimingFromMetadata.
Context {ops : TimeOps}.

Definition job : Type := (string * string * string)%type.

(** The lists the inner loop appends to: [jobs], [start_list],
    [stop_list] and [duration]. *)
Definition task_state : Type :=
  (list job * list string * list string * list float)%type.

(** The lists returned: [jobs], [first_job], [last_job], [longest_job]. *)
Definition timing : Type :=
  (list job * list string * list string * list float)%type.

(** [(Time(stop[:-6]).mjd - Time(start[:-6]).mjd) * 86400] *)
Definition duration_of (start stop : string) : result float :=
  t1 <- Time_mjd (drop_last 6 stop) ;;
  t0 <- Time_mjd (drop_last 6 start) ;;
  Ok (float_mul (float_sub t1 t0) (float_of_int 86400)).

(** The body of [for v in vv:] (source lines 117-132). *)
Definition record_step (v : TaskMetadata) (st : task_state) : result task_state :=
  let '(jobs, start_list, stop_list, duration) := st in
  arrs <- match quantum_arrays v with
          | Some arrs => Ok arrs
          | None => Err (KeyError "quantum")
          end ;;
  sel <- select_timing arrs ;;
  match sel with
  | None => Ok st
  | Some (start, stop) =>
      name <- first_key (metadata_keys v) ;;
      d <- duration_of start stop ;;
      Ok ((jobs ++ [(name, start, stop)])%list,
          (start_list ++ [start])%list,
          (stop_list ++ [stop])%list,
          (duration ++ [d])%list)
  end.

(** The body of [for k, vv in task_md.items():] (source lines 112-135);
    the [print] goes to standard output, which is not modelled. *)
Definition task_step (kvv : string * list TaskMetadata) (st : timing)
  : result timing :=
  let '(jobs, first_job, last_job, longest_job) := st in
  '(jobs', start_list, stop_list, duration) <-
    for_each (snd kvv) record_step (jobs, [], [], []) ;;
  first <- py_min str_lt start_list ;;
  last <- py_max str_gt stop_list ;;
  longest <- py_max float_gt duration ;;
  Ok (jobs',
      (first_job ++ [first])%list,
      (last_job ++ [last])%list,
      (longest_job ++ [longest])%list).

(** [get_timing_from_metadata(task_md)] *)
Definition get_timing_from_metadata (task_md : list (string * list TaskMetadata))
  : result timing :=
  for_each task_md task_step ([], [], [], []).

End GetTimingFromMetadata.

(** ** Notions used to state the properties *)

(** The concatenation of a list of text blocks. *)
Definition concat_blocks (blocks : list string) : string :=
  fold_right String.append "" blocks.

(** [nested_in props v]: [v] is a descriptor of the mapping [props], at the
    top or below object-typed descriptors, through their ['properties']. *)
Inductive nested_in : list (string * pyval) -> pyval -> Prop :=
| nested_top props name v :
    In (name, v) props -> nested_in props v
| nested_below props name d ps v :
    In (name, PyDict d) props ->
    Dict.lookup "type" d = Some (PyStr "object") ->
    Dict.lookup "properties" d = Some (PyDict ps) ->
    nested_in ps v ->
    nested_in props v.

(** [well_shaped v]: the descriptor [v] is a dict, the ['items'] of an
    array-typed descriptor is a dict, the ['properties'] of an object-typed
    one is a dict of well-shaped descriptors.  Nothing is asked of the keys
    ['description'] and ['type']. *)
Fixpoint well_shaped (v : pyval) : bool :=
  match v with
  | PyDict d =>
      match Dict.lookup "type" d with
      | Some type =>
          (if eq_str type "array" then
             match Dict.lookup "items" d with
             | Some (PyDict _) | None => true
             | Some _ => false
             end
           else true)
          && (if eq_str type "object" then
                Dict.lookup_with "properties"
                  (fun props =>
                     match props with
                     | PyDict ps => forallb (fun kv => well_shaped (snd kv)) ps
                     | _ => false
                     end)
                  true d
              else true)
      | None => true
      end
  | _ => false
  end.

(** The start and stop of a record the loop does not skip. *)
Definition instance_of (v : TaskMetadata) : option (string * string) :=
  match quantum_arrays v with
  | Some arrs =>
      match select_timing arrs with
      | Ok (Some p) => Some p
      | _ => None
      end
  | None => None
  end.

(** The (start, stop) pairs of the records of a task that are not skipped,
    in the order of the records. *)
Definition instances (vv : list TaskMetadata) : list (string * string) :=
  flat_map (fun v => match instance_of v with Some p => [p] | None => [] end) vv.

(** [skipped v]: the record has arrays under neither ['startUtc'] nor
    ['runQuantumStartCpuTime']. *)
Definition skipped (v : TaskMetadata) : bool :=
  match quantum_arrays v with
  | Some arrs =>
      negb (Dict.mem "startUtc" arrs) && negb (Dict.mem "runQuantumStartCpuTime" arrs)
  | None => false
  end.

(** The requests for one task, visit-major and detector-minor. *)
Definition requests_for (collection task : string) (visit_list detector_list : list Z)
  : list request :=
  flat_map
    (fun visit =>
       map (fun detector =>
              {| dataset := task ++ "_metadata";
                 exposure := visit;
                 visit := visit;
                 detector := detector;
                 collections := collection |})
         detector_list)
    visit_list.

(** The requests for all the tasks, task after task. *)
Definition all_requests (collection : string) (task_list : list string)
  (visit_list detector_list : list Z) : list request :=
  flat_map (fun task => requests_for collection task visit_list detector_list) task_list.

(** Makes the requests in order, each once, up to the first one the client
    answers with an exception: the records received or that exception,
    and the requests made. *)
Fixpoint fetch_seq {service : ButlerService} (butler : client) (rqs : list request)
  : result (list TaskMetadata) * list request :=
  match rqs with
  | [] => (Ok [], [])
  | rq :: tl =>
      match butler_get butler rq with
      | Err e => (Err e, [rq])
      | Ok r =>
          match fetch_seq butler tl with
          | (Ok recs, made) => (Ok (r :: recs), rq :: made)
          | (Err e, made) => (Err e, rq :: made)
          end
      end
  end.

(** The records of one task, when all its requests are answered. *)
Definition records_for {service : ButlerService} (butler : client)
  (collection task : string) (visit_list detector_list : list Z) : list TaskMetadata :=
  match fst (fetch_seq butler (requests_for collection task visit_list detector_list)) with
  | Ok recs => recs
  | Err _ => []
  end.

(** [answered butler rq]: the client has a record for the request. *)
Definition answered {service : ButlerService} (butler : client) (rq : request) : Prop :=
  is_ok (butler_get butler rq) = true.

(** The outcome of a loop that makes the requests [rqs] from the log [log]
    and appends the records to [acc]. *)
Definition appended {service : ButlerService} (butler : client) (rqs : list request)
  (acc : list TaskMetadata) (log : list request)
  : result (list TaskMetadata) * list request :=
  match fetch_seq butler rqs with
  | (Ok recs, made) => (Ok (acc ++ recs)%list, (log ++ made)%list)
  | (Err e, made) => (Err e, (log ++ made)%list)
  end.

(** [agree_on keys d d']: the two dicts give the same answer for every key
    of [keys]. *)
Definition agree_on {V : Type} (keys : list string) (d d' : list (string * V)) : Prop :=
  forall k, In k keys -> Dict.lookup k d' = Dict.lookup k d.

(** The keys add_property reads. *)
Definition descriptor_keys : list string :=
  ["description"; "type"; "default"; "items"; "properties"].

(** [whole_lines s]: the text is empty or ends with a line feed. *)
Definition whole_lines (s : string) : Prop :=
  s = "" \/ exists t, s = t ++ nl.

(** The keys of a dict, in order. *)
Definition keys_of {V : Type} (d : list (string * V)) : list string := map fst d.

(** The four lists of [s] followed by the four lists of [s']. *)
Definition append4 {A B C D : Type} (s s' : list A * list B * list C * list D)
  : list A * list B * list C * list D :=
  let '(a, b, c, d) := s in
  let '(a', b', c', d') := s' in
  ((a ++ a')%list, (b ++ b')%list, (c ++ c')%list, (d ++ d')%list).

(** ** Instances used in the examples *)

(** Timestamps written as a day number in decimal digits (followed by a
    six-character suffix, which [drop_last 6] removes), with integers for
    floats. *)
Fixpoint digits_value (s : string) (acc : Z) : option Z :=
  match s with
  | EmptyString => Some acc
  | String c tl =>
      let n := nat_of_ascii c in
      if Nat.leb 48 n && Nat.leb n 57
      then digits_value tl (10 * acc + Z.of_nat (n - 48))
      else None
  end.

Definition day_number (text : string) : result Z :=
  match text with
  | EmptyString => Err ValueError
  | _ => match digits_value text 0 with
         | Some z => Ok z
         | None => Err ValueError
         end
  end.

Definition int_days : TimeOps :=
  {| float := Z;
     Time_mjd := day_number;
     float_sub := Z.sub;
     float_mul := Z.mul;
     float_of_int := fun z => z;
     float_gt := Z.gtb |}.

(** A service that has a record for every detector that is not negative. *)
Definition toy_record (rq : request) : TaskMetadata :=
  {| quantum_arrays := Some [("startUtc", ["100+00:00"]);
                             ("prepUtc", ["100+00:00"]);
                             ("endUtc", ["101+00:00"])];
     metadata_keys :=
       [dataset rq ++ ":" ++ str_of_int (visit rq) ++ ":" ++ str_of_int (detector rq);
        "quantum"] |}.

Definition toy_service : ButlerService :=
  {| client := unit;
     Butler := fun _ _ => Ok tt;
     butler_get := fun _ rq =>
       if (detector rq <? 0)%Z then Err (ExternalError "not found")
       else Ok (toy_record rq) |}.

(** Two records with the arrays of Convention A, one with those of
    Convention B, and one with neither. *)
Definition arrs_a1 : list (string * list string) :=
  [("startUtc", ["102+00:00"; "103+00:00"]);
   ("prepUtc", ["102+00:00"; "101+00:00"]);
   ("endUtc", ["104+00:00"; "105+00:00"])].

Definition arrs_a2 : list (string * list string) :=
  [("startUtc", ["100+00:00"]); ("prepUtc", ["100+00:00"]); ("endUtc", ["110+00:00"])].

Definition arrs_b : list (string * list string) :=
  [("runQuantumStartCpuTime", ["0.5"]);
   ("runQuantumStartUtc", ["200+00:00"]);
   ("runQuantumEndUtc", ["203+00:00"; "202+00:00"])].

Definition arrs_noop : list (string * list string) := [("other", ["1"])].

Definition rec_a1 : TaskMetadata :=
  {| quantum_arrays := Some arrs_a1; metadata_keys := ["isr:1"; "quantum"] |}.

Definition rec_a2 : TaskMetadata :=
  {| quantum_arrays := Some arrs_a2; metadata_keys := ["isr:2"; "quantum"] |}.

Definition rec_b : TaskMetadata :=
  {| quantum_arrays := Some arrs_b; metadata_keys := ["calc:1"; "quantum"] |}.

Definition rec_noop : TaskMetadata :=
  {| quantum_arrays := Some arrs_noop; metadata_keys := ["noop:1"; "quantum"] |}.

(** An object-typed descriptor with two nested properties and an
    array-typed one. *)
Definition ex_object : list (string * pyval) :=
  [("description", PyStr "Offsets");
   ("type", PyStr "object");
   ("properties",
     PyDict [("x", PyDict [("description", PyStr "X offset");
                           ("type", PyStr "number");
                           ("default", PyInt 0)]);
             ("label", PyDict [("description", PyStr "Label");
                               ("type", PyStr "string");
                               ("default", PyStr "none")])])].

Definition ex_items : list (string * pyval) :=
  [("type", PyStr "number"); ("description", PyStr "one value"); ("maximum", PyInt 10)].

Definition ex_array : list (string * pyval) :=
  [("description", PyStr "Values");
   ("type", PyStr "array");
   ("items", PyDict ex_items)].

Definition ex_string : list (string * pyval) :=
  [("description", PyStr "Filter name"); ("type", PyStr "string"); ("default", PyStr "r")].

(** A mapping whose nested property [y] has no 'description'. *)
Definition ex_missing : list (string * pyval) :=
  [("outer",
     PyDict [("description", PyStr "Outer");
             ("type", PyStr "object");
             ("properties", PyDict [("y", PyDict [("type", PyStr "number")])])])].

(** * Properties *)

(** ** Results, dicts and strings *)

Lemma bind_Ok_inv {A B : Type} (r : result A) (k : A -> result B) (b : B) :
  bind r k = Ok b -> exists a, r = Ok a /\ k a = Ok b.
Proof.
  destruct r as [a | e]; simpl; intros H; [eauto | discriminate].
Qed.

Lemma bind_Err_inv {A B : Type} (r : result A) (k : A -> result B) (e : pyerr) :
  bind r k = Err e -> r = Err e \/ exists a, r = Ok a /\ k a = Err e.
Proof.
  destruct r as [a | e']; simpl; intros H; [right; eauto | left; congruence].
Qed.

Lemma lookup_with_spec {V A : Type} (k : string) (found : V -> A) (missing : A)
  (d : list (string * V)) :
  Dict.lookup_with k found missing d =
  match Dict.lookup k d with Some v => found v | None => missing end.
Proof.
  induction d as [| [k' v] tl IH]; simpl; [reflexivity |].
  destruct (String.eqb k' k); [reflexivity | exact IH].
Qed.

Lemma lookup_In {V : Type} (k : string) (d : list (string * V)) (v : V) :
  Dict.lookup k d = Some v -> In (k, v) d.
Proof.
  induction d as [| [k' v'] tl IH]; simpl; [discriminate |].
  destruct (String.eqb_spec k' k) as [-> | _].
  - intros [= ->]. now left.
  - intros H. right. auto.
Qed.

Lemma getitem_Some {V : Type} (k : string) (d : list (string * V)) (v : V) :
  Dict.lookup k d = Some v -> Dict.getitem k d = Ok v.
Proof. unfold Dict.getitem. now intros ->. Qed.

Lemma getitem_None {V : Type} (k : string) (d : list (string * V)) :
  Dict.lookup k d = None -> Dict.getitem k d = Err (KeyError k).
Proof. unfold Dict.getitem. now intros ->. Qed.

Lemma str_app_assoc (a b c : string) : (a ++ b) ++ c = a ++ (b ++ c).
Proof.
  induction a as [| x a IH]; simpl; [reflexivity | now rewrite IH].
Qed.

Lemma str_app_nil_r (a : string) : a ++ "" = a.
Proof.
  induction a as [| x a IH]; simpl; [reflexivity | now rewrite IH].
Qed.

Lemma spaces_add (n m : nat) : spaces (n + m) = spaces n ++ spaces m.
Proof.
  induction n as [| n IH]; simpl; [reflexivity | now rewrite IH].
Qed.

Lemma eq_str_true (v : pyval) (s : string) : eq_str v s = true <-> v = PyStr s.
Proof.
  destruct v; simpl; split; try discriminate.
  - intros H. apply String.eqb_eq in H. now subst.
  - intros [= ->]. apply String.eqb_refl.
Qed.

(** ** add_property: the equation of the source *)

Lemma add_property_unfold (prop_name : string) (d : list (string * pyval))
  (indent_level : nat) :
  add_property prop_name (PyDict d) indent_level =
  (description <- Dict.getitem "description" d ;;
   type <- Dict.getitem "type" d ;;
   items <- items_lines (spaces indent_level) type d ;;
   nested <- properties_lines indent_level type d ;;
   Ok (head_lines (spaces indent_level) prop_name description type
       ++ default_lines (spaces indent_level) type d ++ items ++ nested)).
Proof.
  unfold properties_lines.
  cbn [add_property].
  destruct (Dict.getitem "description" d) as [description | e]; [| reflexivity].
  destruct (Dict.getitem "type" d) as [type | e]; [| reflexivity].
  cbn [bind].
  destruct (items_lines (spaces indent_level) type d) as [items | e]; [| reflexivity].
  cbn [bind].
  rewrite lookup_with_spec.
  destruct (eq_str type "object"); [| reflexivity].
  destruct (Dict.lookup "properties" d) as [[| | | | | |] |]; reflexivity.
Qed.

Lemma add_property_not_dict (prop_name : string) (v : pyval) (indent_level : nat) :
  (forall d, v <> PyDict d) -> add_property prop_name v indent_level = Err TypeError.
Proof.
  destruct v; intros H; try reflexivity. now destruct (H d).
Qed.

(** ** Loops over the entries of a mapping *)

Lemma concat_items_Ok {V : Type} (f : string -> V -> result string)
  (ps : list (string * V)) (blocks : list string) :
  Forall2 (fun kv b => f (fst kv) (snd kv) = Ok b) ps blocks ->
  concat_items f ps = Ok (concat_blocks blocks).
Proof.
  induction 1 as [| [k v] b ps blocks Hb _ IH]; simpl; [reflexivity |].
  simpl in Hb. now rewrite Hb, IH.
Qed.

Lemma concat_items_Ok_inv {V : Type} (f : string -> V -> result string)
  (ps : list (string * V)) (r : string) :
  concat_items f ps = Ok r ->
  exists blocks,
    Forall2 (fun kv b => f (fst kv) (snd kv) = Ok b) ps blocks
    /\ r = concat_blocks blocks.
Proof.
  revert r. induction ps as [| [k v] tl IH]; simpl; intros r H.
  - injection H as <-. exists []. split; [constructor | reflexivity].
  - apply bind_Ok_inv in H as (s & Hs & H).
    apply bind_Ok_inv in H as (r' & Hr' & H).
    injection H as <-.
    destruct (IH r' Hr') as (blocks & HF & ->).
    exists (s :: blocks). split; [constructor; assumption | reflexivity].
Qed.

Lemma concat_items_Err_In {V : Type} (f : string -> V -> result string)
  (ps : list (string * V)) (k : string) (v : V) (e : pyerr) :
  In (k, v) ps -> f k v = Err e -> exists e', concat_items f ps = Err e'.
Proof.
  induction ps as [| [k' v'] tl IH]; simpl; [contradiction |].
  intros [[= -> ->] | Hin] He.
  - rewrite He. simpl. eauto.
  - destruct (f k' v') as [s | e1]; simpl; [| eauto].
    destruct (IH Hin He) as (e' & ->). simpl. eauto.
Qed.

Lemma concat_items_Err_inv {V : Type} (f : string -> V -> result string)
  (ps : list (string * V)) (e : pyerr) :
  concat_items f ps = Err e -> exists k v, In (k, v) ps /\ f k v = Err e.
Proof.
  induction ps as [| [k v] tl IH]; simpl; [discriminate |].
  intros H. apply bind_Err_inv in H as [H | (s & Hs & H)].
  - exists k, v. auto.
  - apply bind_Err_inv in H as [H | (r & _ & H)]; [| discriminate].
    destruct (IH H) as (k' & v' & Hin & He). exists k', v'. auto.
Qed.

Lemma Forall2_length_eq {A B : Type} (R : A -> B -> Prop) (l : list A) (l' : list B) :
  Forall2 R l l' -> length l' = length l.
Proof. induction 1; simpl; congruence. Qed.

(** ** add_property: shape of the output *)

(** A serialized property begins with its name line, at its own indent. *)
Lemma add_property_name_line (prop_name : string) (v : pyval) (indent_level : nat)
  (s : string) :
  add_property prop_name v indent_level = Ok s ->
  exists body, s = spaces indent_level ++ prop_name ++ ":" ++ nl ++ body.
Proof.
  destruct v; try discriminate.
  rewrite add_property_unfold. intros H.
  apply bind_Ok_inv in H as (description & _ & H).
  apply bind_Ok_inv in H as (type & _ & H).
  apply bind_Ok_inv in H as (items & _ & H).
  apply bind_Ok_inv in H as (nested & _ & H).
  injection H as <-. unfold head_lines.
  repeat rewrite str_app_assoc. eauto.
Qed.

(** The text of a descriptor whose type is neither array nor object. *)
Lemma add_property_scalar (prop_name : string) (d : list (string * pyval))
  (indent_level : nat) (description type : pyval) :
  Dict.lookup "description" d = Some description ->
  Dict.lookup "type" d = Some type ->
  eq_str type "array" = false ->
  eq_str type "object" = false ->
  add_property prop_name (PyDict d) indent_level =
  Ok (head_lines (spaces indent_level) prop_name description type
      ++ default_lines (spaces indent_level) type d).
Proof.
  intros Hd Ht Ha Ho. rewrite add_property_unfold.
  rewrite (getitem_Some _ _ _ Hd), (getitem_Some _ _ _ Ht). simpl.
  unfold items_lines, properties_lines. rewrite Ha, Ho. simpl.
  now rewrite str_app_nil_r.
Qed.

(** ** C3: nested properties of an object *)

(** C3.  For a descriptor of type 'object' with a 'properties' mapping
    [ps], add_property returns a text exactly when every entry of [ps]
    serializes at indent_level + 2, and the text is then the parent's own
    lines, the [properties:] line and the nested blocks, one per entry
    of [ps] in the order of [ps]; each block begins with the entry's name
    line, two levels (four spaces) deeper than the parent's name line. *)
Theorem add_property_object_blocks (prop_name : string) (d : list (string * pyval))
  (indent_level : nat) (description : pyval) (ps : list (string * pyval)) :
  Dict.lookup "description" d = Some description ->
  Dict.lookup "type" d = Some (PyStr "object") ->
  Dict.lookup "properties" d = Some (PyDict ps) ->
  (forall s,
      add_property prop_name (PyDict d) indent_level = Ok s <->
      exists blocks,
        Forall2 (fun kv b => add_property (fst kv) (snd kv) (indent_level + 2) = Ok b)
          ps blocks
        /\ s = head_lines (spaces indent_level) prop_name description (PyStr "object")
               ++ default_lines (spaces indent_level) (PyStr "object") d
               ++ spaces indent_level ++ "  properties:" ++ nl
               ++ concat_blocks blocks)
  /\ (forall blocks,
         Forall2 (fun kv b => add_property (fst kv) (snd kv) (indent_level + 2) = Ok b)
           ps blocks ->
         length blocks = length ps
         /\ Forall2 (fun kv b =>
                       exists body,
                         b = spaces indent_level ++ "    " ++ fst kv ++ ":" ++ nl ++ body)
              ps blocks).
Proof.
  intros Hd Ht Hp. split.
  - intros s. rewrite add_property_unfold.
    rewrite (getitem_Some _ _ _ Hd), (getitem_Some _ _ _ Ht).
    unfold items_lines, properties_lines. simpl bind. rewrite Hp.
    split.
    + intros H. apply bind_Ok_inv in H as (nested & Hn & H).
      apply bind_Ok_inv in Hn as (r & Hr & Hn).
      apply concat_items_Ok_inv in Hr as (blocks & HF & ->).
      exists blocks. split; [exact HF |].
      injection Hn as <-. injection H as <-. reflexivity.
    + intros (blocks & HF & ->).
      rewrite (concat_items_Ok _ _ _ HF). reflexivity.
  - intros blocks HF. split; [exact (Forall2_length_eq _ _ _ HF) |].
    clear Hd Ht Hp.
    induction HF as [| [k v] b tl bs Hb _ IH]; constructor; [| exact IH].
    cbn [fst snd] in *. apply add_property_name_line in Hb as (body & ->).
    exists body. rewrite spaces_add, !str_app_assoc. reflexivity.
Qed.

(** ** C4: the items of an array *)

Lemma lookup_setitem_same {V : Type} (k : string) (v : V) (d : list (string * V)) :
  Dict.lookup k (Dict.setitem k v d) = Some v.
Proof.
  induction d as [| [k' v'] tl IH]; simpl.
  - now rewrite String.eqb_refl.
  - destruct (String.eqb k' k) eqn:E; simpl; rewrite E; [reflexivity | exact IH].
Qed.

Lemma lookup_setitem_other {V : Type} (k k0 : string) (v : V) (d : list (string * V)) :
  k <> k0 -> Dict.lookup k0 (Dict.setitem k v d) = Dict.lookup k0 d.
Proof.
  intros Hne. induction d as [| [k' v'] tl IH]; simpl.
  - destruct (String.eqb_spec k k0); [contradiction | reflexivity].
  - destruct (String.eqb_spec k' k) as [-> | Hk]; simpl.
    + destruct (String.eqb_spec k k0); [contradiction | reflexivity].
    + now rewrite IH.
Qed.

(** C4.  For a descriptor of type 'array' whose 'items' is a dict with a
    'type', add_property returns the parent's own lines followed by the
    [items:] line, the item's [type:] line, a [minimum:] line exactly when
    the items have the key 'minimum' and a [maximum:] line exactly when
    they have the key 'maximum'.  The item's 'description' is not part of
    the text: setting it to any value leaves the result unchanged. *)
Theorem add_property_array_items (prop_name : string) (d : list (string * pyval))
  (indent_level : nat) (description : pyval) (item_details : list (string * pyval))
  (item_type : pyval) :
  Dict.lookup "description" d = Some description ->
  Dict.lookup "type" d = Some (PyStr "array") ->
  Dict.lookup "items" d = Some (PyDict item_details) ->
  Dict.lookup "type" item_details = Some item_type ->
  add_property prop_name (PyDict d) indent_level =
  Ok (head_lines (spaces indent_level) prop_name description (PyStr "array")
      ++ default_lines (spaces indent_level) (PyStr "array") d
      ++ spaces indent_level ++ "  items:" ++ nl
      ++ spaces indent_level ++ "    type: " ++ py_str item_type ++ nl
      ++ match Dict.lookup "minimum" item_details with
         | Some m => spaces indent_level ++ "    minimum: " ++ py_str m ++ nl
         | None => ""
         end
      ++ match Dict.lookup "maximum" item_details with
         | Some m => spaces indent_level ++ "    maximum: " ++ py_str m ++ nl
         | None => ""
         end)
  /\ forall x,
       add_property prop_name
         (PyDict (Dict.setitem "items"
                    (PyDict (Dict.setitem "description" x item_details)) d))
         indent_level
       = add_property prop_name (PyDict d) indent_level.
Proof.
  intros Hd Ht Hi Hit. split.
  - rewrite add_property_unfold.
    rewrite (getitem_Some _ _ _ Hd), (getitem_Some _ _ _ Ht).
    unfold items_lines, properties_lines, bound_line. simpl bind.
    rewrite Hi, (getitem_Some _ _ _ Hit). simpl bind.
    rewrite str_app_nil_r. reflexivity.
  - intros x. rewrite !add_property_unfold.
    unfold default_lines, items_lines, properties_lines, bound_line.
    unfold Dict.getitem.
    rewrite (lookup_setitem_other "items" "description") by discriminate.
    rewrite (lookup_setitem_other "items" "type") by discriminate.
    rewrite (lookup_setitem_other "items" "default") by discriminate.
    rewrite lookup_setitem_same, Hd, Ht, Hi. cbn [bind eq_str String.eqb Ascii.eqb Bool.eqb].
    rewrite (lookup_setitem_other "description" "type") by discriminate.
    rewrite (lookup_setitem_other "description" "minimum") by discriminate.
    rewrite (lookup_setitem_other "description" "maximum") by discriminate.
    reflexivity.
Qed.

(** ** C5: the default line *)

(** C5.  For a descriptor with a 'default', the text add_property returns
    has, right after the name, description and type lines, the line
    [default: value], where [value] is the default's text between double
    quotes when the type is 'string' and the default's text as it is for
    any other type; for a type that is neither array nor object the call
    returns exactly these four lines. *)
Theorem add_property_default_quoting (prop_name : string) (d : list (string * pyval))
  (indent_level : nat) (description type default_value : pyval) :
  Dict.lookup "description" d = Some description ->
  Dict.lookup "type" d = Some type ->
  Dict.lookup "default" d = Some default_value ->
  exists value,
    (type = PyStr "string" ->
     value = String dquote (py_str default_value ++ String dquote ""))
    /\ (type <> PyStr "string" -> value = py_str default_value)
    /\ (forall s,
           add_property prop_name (PyDict d) indent_level = Ok s ->
           exists rest,
             s = head_lines (spaces indent_level) prop_name description type
                 ++ spaces indent_level ++ "  default: " ++ value ++ nl ++ rest)
    /\ (eq_str type "array" = false ->
        eq_str type "object" = false ->
        add_property prop_name (PyDict d) indent_level =
        Ok (head_lines (spaces indent_level) prop_name description type
            ++ spaces indent_level ++ "  default: " ++ value ++ nl)).
Proof.
  intros Hd Ht Hdef. exists (default_text type default_value).
  assert (Hline : default_lines (spaces indent_level) type d
                  = spaces indent_level ++ "  default: "
                    ++ default_text type default_value ++ nl).
  { unfold default_lines. now rewrite Hdef. }
  repeat split.
  - intros ->. reflexivity.
  - intros Hne. unfold default_text.
    destruct (eq_str type "string") eqn:E; [| reflexivity].
    apply eq_str_true in E. contradiction.
  - intros s. rewrite add_property_unfold.
    rewrite (getitem_Some _ _ _ Hd), (getitem_Some _ _ _ Ht). simpl bind.
    intros H. apply bind_Ok_inv in H as (items & _ & H).
    apply bind_Ok_inv in H as (nested & _ & H). injection H as <-.
    exists (items ++ nested). rewrite Hline, !str_app_assoc. reflexivity.
  - intros Ha Ho. rewrite (add_property_scalar _ _ _ _ _ Hd Ht Ha Ho), Hline.
    reflexivity.
Qed.

(** ** C6: the header-only document *)

(** C6.  build_configuration_schema(7, {}) is the five header lines and
    nothing else, and for every block number an empty mapping gives the
    five header lines with the number in the title and description. *)
Theorem build_configuration_schema_empty :
  build_configuration_schema 7 [] =
  Ok ("$schema: http://json-schema.org/draft-07/schema#" ++ nl
      ++ "title: BLOCK-7 configuration" ++ nl
      ++ "description: Configuration for BLOCK-7." ++ nl
      ++ "type: object" ++ nl
      ++ "properties:" ++ nl)
  /\ forall block_number,
       build_configuration_schema block_number [] =
       Ok ("$schema: http://json-schema.org/draft-07/schema#" ++ nl
           ++ "title: BLOCK-" ++ str_of_int block_number ++ " configuration" ++ nl
           ++ "description: Configuration for BLOCK-" ++ str_of_int block_number
           ++ "." ++ nl
           ++ "type: object" ++ nl
           ++ "properties:" ++ nl).
Proof.
  split; [reflexivity |].
  intros block_number. unfold build_configuration_schema, schema_header.
  simpl bind. now rewrite str_app_nil_r.
Qed.

(** ** C7: missing 'description' or 'type' *)

Lemma add_property_no_description (prop_name : string) (d : list (string * pyval))
  (indent_level : nat) :
  Dict.lookup "description" d = None ->
  add_property prop_name (PyDict d) indent_level = Err (KeyError "description").
Proof.
  intros H. rewrite add_property_unfold. now rewrite (getitem_None _ _ H).
Qed.

Lemma add_property_no_type (prop_name : string) (d : list (string * pyval))
  (indent_level : nat) :
  Dict.lookup "description" d <> None ->
  Dict.lookup "type" d = None ->
  add_property prop_name (PyDict d) indent_level = Err (KeyError "type").
Proof.
  intros Hd Ht. rewrite add_property_unfold.
  destruct (Dict.lookup "description" d) as [description |] eqn:E; [| contradiction].
  now rewrite (getitem_Some _ _ _ E), (getitem_None _ _ Ht).
Qed.

(** A descriptor without 'description' or 'type' makes the loop over the
    mapping that contains it fail, at any indent. *)
Lemma nested_in_fails (props : list (string * pyval)) (d : list (string * pyval)) :
  nested_in props (PyDict d) ->
  Dict.lookup "description" d = None \/ Dict.lookup "type" d = None ->
  forall indent_level,
  exists e,
    concat_items (fun name v => add_property name v indent_level) props = Err e.
Proof.
  intros Hn Hmiss.
  remember (PyDict d) as v eqn:Ev.
  induction Hn as [props name v Hin | props name d' ps v Hin Ht Hp Hn IH];
    intros indent_level.
  - subst v.
    assert (exists e, add_property name (PyDict d) indent_level = Err e) as (e & He).
    { destruct (Dict.lookup "description" d) eqn:E.
      - destruct Hmiss as [Hm | Hm]; [discriminate |].
        eexists. apply add_property_no_type; [congruence | exact Hm].
      - eexists. now apply add_property_no_description. }
    exact (concat_items_Err_In _ _ _ _ _ Hin He).
  - specialize (IH Ev).
    assert (exists e, add_property name (PyDict d') indent_level = Err e) as (e & He).
    { rewrite add_property_unfold.
      destruct (Dict.getitem "description" d') as [description | e]; [| simpl; eauto].
      rewrite (getitem_Some _ _ _ Ht). unfold items_lines, properties_lines.
      simpl bind. rewrite Hp.
      destruct (IH (indent_level + 2)) as (e & ->). simpl. eauto. }
    exact (concat_items_Err_In _ _ _ _ _ Hin He).
Qed.

(** On a well-shaped descriptor the only exceptions are the two key
    errors. *)
Lemma well_shaped_errors (v : pyval) :
  forall prop_name indent_level e,
    well_shaped v = true ->
    add_property prop_name v indent_level = Err e ->
    e = KeyError "description" \/ e = KeyError "type".
Proof.
  set (P := fun v => forall prop_name indent_level e,
                well_shaped v = true ->
                add_property prop_name v indent_level = Err e ->
                e = KeyError "description" \/ e = KeyError "type").
  enough (HQ : P v /\ forall ps, v = PyDict ps -> Forall (fun kv => P (snd kv)) ps)
    by exact (proj1 HQ).
  induction v as [| | | | | l _ | d IH] using pyval_nested_ind;
    try (split; [intros ? ? ? Hw; discriminate Hw | intros ? [=]]).
  split.
  2: { intros ps [= <-]. eapply Forall_impl; [| exact IH]. intros kv HQ. exact (proj1 HQ). }
  intros prop_name indent_level e Hw He.
  rewrite add_property_unfold in He. cbn [well_shaped] in Hw.
  unfold Dict.getitem in He.
  destruct (Dict.lookup "description" d) as [description |];
    [| injection He as <-; now left].
  destruct (Dict.lookup "type" d) as [type |];
    [| injection He as <-; now right].
  apply andb_prop in Hw as [Hw1 Hw2]. rewrite lookup_with_spec in Hw2.
  cbn [bind] in He.
  apply bind_Err_inv in He as [He | (items & _ & He)].
  - unfold items_lines in He. destruct (eq_str type "array"); [| discriminate].
    destruct (Dict.lookup "items" d) as [[| | | | | | it] |]; try discriminate.
    apply bind_Err_inv in He as [He | (ty & _ & He)]; [| discriminate].
    unfold Dict.getitem in He.
    destruct (Dict.lookup "type" it); [discriminate |].
    injection He as <-. now right.
  - apply bind_Err_inv in He as [He | (nested & _ & He)]; [| discriminate].
    unfold properties_lines in He. destruct (eq_str type "object"); [| discriminate].
    destruct (Dict.lookup "properties" d) as [[| | | | | | ps] |] eqn:Ep;
      try discriminate.
    apply bind_Err_inv in He as [He | (r & _ & He)]; [| discriminate].
    apply concat_items_Err_inv in He as (k & x & Hin & He).
    apply lookup_In in Ep.
    rewrite Forall_forall in IH. destruct (IH _ Ep) as [_ Hps].
    specialize (Hps ps eq_refl). rewrite Forall_forall in Hps.
    rewrite forallb_forall in Hw2.
    exact (Hps _ Hin k (indent_level + 2) e (Hw2 _ Hin) He).
Qed.

(** C7.  add_property raises KeyError('description') on a descriptor
    without 'description', and KeyError('type') on one with 'description'
    but without 'type'.  build_configuration_schema on a mapping that
    holds such a descriptor, at the top or nested below object-typed
    descriptors, returns no document: it ends with an exception, and in a
    mapping of well-shaped descriptors that exception is one of these two
    key errors. *)
Theorem add_property_missing_required :
  (forall prop_name d indent_level,
      Dict.lookup "description" d = None ->
      add_property prop_name (PyDict d) indent_level = Err (KeyError "description"))
  /\ (forall prop_name d indent_level,
         Dict.lookup "description" d <> None ->
         Dict.lookup "type" d = None ->
         add_property prop_name (PyDict d) indent_level = Err (KeyError "type"))
  /\ (forall block_number properties d,
         nested_in properties (PyDict d) ->
         Dict.lookup "description" d = None \/ Dict.lookup "type" d = None ->
         exists e,
           build_configuration_schema block_number properties = Err e
           /\ ((forall name v, In (name, v) properties -> well_shaped v = true) ->
               e = KeyError "description" \/ e = KeyError "type")).
Proof.
  split; [exact add_property_no_description |].
  split; [exact add_property_no_type |].
  intros block_number properties d Hn Hmiss.
  destruct (nested_in_fails _ _ Hn Hmiss 1) as (e & He).
  exists e. unfold build_configuration_schema. rewrite He. split; [reflexivity |].
  intros Hws. apply concat_items_Err_inv in He as (k & v & Hin & He).
  exact (well_shaped_errors v k 1 e (Hws _ _ Hin) He).
Qed.

(** ** The built-ins min and max *)

Lemma for_each_app {A S : Type} (l1 l2 : list A) (body : A -> S -> result S) (s : S) :
  for_each (l1 ++ l2)%list body s = (s' <- for_each l1 body s ;; for_each l2 body s').
Proof.
  revert s. induction l1 as [| x tl IH]; intros s; simpl; [reflexivity |].
  destruct (body x s) as [s' | e]; simpl; [apply IH | reflexivity].
Qed.

Lemma str_leb_refl (a : string) : String.leb a a = true.
Proof. destruct (String.leb_total a a); assumption. Qed.

Lemma str_ltb_lt (a b : string) : String.ltb a b = true <-> String_as_OT.lt a b.
Proof.
  rewrite <- String_as_OT.cmp_lt. unfold String.ltb, String_as_OT.cmp.
  destruct (String.compare a b); split; congruence.
Qed.

Lemma str_leb_lt_or_eq (a b : string) :
  String.leb a b = true <-> String_as_OT.lt a b \/ a = b.
Proof.
  rewrite <- String_as_OT.cmp_lt, <- String_as_OT.cmp_eq.
  unfold String.leb, String_as_OT.cmp.
  destruct (String.compare a b); split; intros H; try congruence; auto.
  destruct H; discriminate.
Qed.

Lemma str_leb_trans (a b c : string) :
  String.leb a b = true -> String.leb b c = true -> String.leb a c = true.
Proof.
  rewrite !str_leb_lt_or_eq. intros [Hab | ->] [Hbc | ->]; auto.
  left. exact (String_as_OT.lt_trans _ _ _ Hab Hbc).
Qed.

Lemma str_ltb_leb (a b : string) : String.ltb a b = true -> String.leb a b = true.
Proof. rewrite str_ltb_lt, str_leb_lt_or_eq. auto. Qed.

Lemma str_ltb_false_leb (a b : string) : String.ltb a b = false -> String.leb b a = true.
Proof.
  unfold String.ltb, String.leb. rewrite (String.compare_antisym b a).
  destruct (String.compare a b); simpl; congruence.
Qed.

Lemma fold_min_spec (tl : list string) (x : string) :
  let m := fold_left (fun m y => if str_lt y m then y else m) tl x in
  In m (x :: tl)
  /\ String.leb m x = true
  /\ Forall (fun y => String.leb m y = true) tl.
Proof.
  revert x. induction tl as [| y tl IH]; intros x; cbn [fold_left].
  - cbv zeta. split; [now left |]. split; [apply str_leb_refl | constructor].
  - set (x' := if str_lt y x then y else x).
    assert (Hx' : (x' = x \/ x' = y)
                  /\ String.leb x' x = true /\ String.leb x' y = true).
    { unfold x', str_lt. destruct (String.ltb y x) eqn:E.
      - split; [now right |]. split; [now apply str_ltb_leb | apply str_leb_refl].
      - split; [now left |].
        split; [apply str_leb_refl | now apply str_ltb_false_leb]. }
    destruct Hx' as (Hor & Hx & Hy). destruct (IH x') as (Hin & Hm & HF).
    cbv zeta. split; [| split].
    + destruct Hin as [Hin | Hin]; [| right; right; exact Hin].
      rewrite <- Hin. destruct Hor as [-> | ->]; [now left | right; now left].
    + exact (str_leb_trans _ _ _ Hm Hx).
    + constructor; [exact (str_leb_trans _ _ _ Hm Hy) | exact HF].
Qed.

Lemma fold_max_spec (tl : list string) (x : string) :
  let m := fold_left (fun m y => if str_gt y m then y else m) tl x in
  In m (x :: tl)
  /\ String.leb x m = true
  /\ Forall (fun y => String.leb y m = true) tl.
Proof.
  revert x. induction tl as [| y tl IH]; intros x; cbn [fold_left].
  - cbv zeta. split; [now left |]. split; [apply str_leb_refl | constructor].
  - set (x' := if str_gt y x then y else x).
    assert (Hx' : (x' = x \/ x' = y)
                  /\ String.leb x x' = true /\ String.leb y x' = true).
    { unfold x', str_gt. destruct (String.ltb x y) eqn:E.
      - split; [now right |]. split; [now apply str_ltb_leb | apply str_leb_refl].
      - split; [now left |].
        split; [apply str_leb_refl | now apply str_ltb_false_leb]. }
    destruct Hx' as (Hor & Hx & Hy). destruct (IH x') as (Hin & Hm & HF).
    cbv zeta. split; [| split].
    + destruct Hin as [Hin | Hin]; [| right; right; exact Hin].
      rewrite <- Hin. destruct Hor as [-> | ->]; [now left | right; now left].
    + exact (str_leb_trans _ _ _ Hx Hm).
    + constructor; [exact (str_leb_trans _ _ _ Hy Hm) | exact HF].
Qed.

(** [min] over text returns a member that is at most every member. *)
Lemma py_min_str_least (l : list string) (m : string) :
  py_min str_lt l = Ok m ->
  In m l /\ Forall (fun x => String.leb m x = true) l.
Proof.
  destruct l as [| x tl]; simpl; [discriminate |]. intros [= <-].
  destruct (fold_min_spec tl x) as (Hin & Hx & HF).
  split; [exact Hin | constructor; assumption].
Qed.

(** [max] over text returns a member that is at least every member. *)
Lemma py_max_str_greatest (l : list string) (m : string) :
  py_max str_gt l = Ok m ->
  In m l /\ Forall (fun x => String.leb x m = true) l.
Proof.
  destruct l as [| x tl]; simpl; [discriminate |]. intros [= <-].
  destruct (fold_max_spec tl x) as (Hin & Hx & HF).
  split; [exact Hin | constructor; assumption].
Qed.

(** ** get_timing_from_metadata *)

Section TimingProperties.
Context {ops : TimeOps}.

Lemma select_timing_neither (arrs : list (string * list string)) :
  Dict.mem "startUtc" arrs = false ->
  Dict.mem "runQuantumStartCpuTime" arrs = false ->
  select_timing arrs = Ok None.
Proof. unfold select_timing. now intros -> ->. Qed.

Lemma skipped_instance (v : TaskMetadata) : skipped v = true -> instance_of v = None.
Proof.
  unfold skipped, instance_of. destruct (quantum_arrays v) as [arrs |]; [| discriminate].
  intros H. apply andb_prop in H as [H1 H2].
  apply negb_true_iff in H1, H2. now rewrite (select_timing_neither _ H1 H2).
Qed.

Lemma record_step_skipped (v : TaskMetadata) (st : task_state) :
  skipped v = true -> record_step v st = Ok st.
Proof.
  unfold skipped, record_step. destruct st as [[[jobs sl] stl] dur].
  destruct (quantum_arrays v) as [arrs |]; [| discriminate].
  intros H. apply andb_prop in H as [H1 H2].
  apply negb_true_iff in H1, H2. cbn [bind].
  now rewrite (select_timing_neither _ H1 H2).
Qed.

(** What one pass of the inner loop does to the four lists. *)
Lemma record_step_inv (v : TaskMetadata) (jobs : list job) (sl stl : list string)
  (dur : list float) (st' : task_state) :
  record_step v (jobs, sl, stl, dur) = Ok st' ->
  (instance_of v = None /\ st' = (jobs, sl, stl, dur))
  \/ exists start stop name d,
       instance_of v = Some (start, stop)
       /\ first_key (metadata_keys v) = Ok name
       /\ duration_of start stop = Ok d
       /\ st' = ((jobs ++ [(name, start, stop)])%list, (sl ++ [start])%list,
                 (stl ++ [stop])%list, (dur ++ [d])%list).
Proof.
  unfold record_step, instance_of.
  destruct (quantum_arrays v) as [arrs |]; [| discriminate]. cbn [bind].
  destruct (select_timing arrs) as [[[start stop] |] | e]; cbn [bind];
    [| intros [= <-]; now left | discriminate].
  intros H. apply bind_Ok_inv in H as (name & Hn & H).
  apply bind_Ok_inv in H as (d & Hd & H). injection H as <-.
  right. exists start, stop, name, d. auto.
Qed.

Lemma inner_loop_lists (vv : list TaskMetadata) :
  forall jobs sl stl dur jobs' sl' stl' dur',
    for_each vv record_step (jobs, sl, stl, dur) = Ok (jobs', sl', stl', dur') ->
    sl' = (sl ++ map fst (instances vv))%list
    /\ stl' = (stl ++ map snd (instances vv))%list
    /\ exists js ds,
         jobs' = (jobs ++ js)%list
         /\ dur' = (dur ++ ds)%list
         /\ map (fun j : job => (snd (fst j), snd j)) js = instances vv
         /\ Forall2 (fun p d => duration_of (fst p) (snd p) = Ok d) (instances vv) ds.
Proof.
  induction vv as [| v vv IH]; intros jobs sl stl dur jobs' sl' stl' dur' H.
  - injection H as <- <- <- <-. unfold instances. simpl. rewrite !app_nil_r.
    repeat split. exists [], []. rewrite !app_nil_r. repeat split. constructor.
  - cbn [for_each] in H. apply bind_Ok_inv in H as (st1 & H1 & H).
    apply record_step_inv in H1
      as [[Hi ->] | (start & stop & name & d & Hi & Hn & Hd & ->)];
      apply IH in H as (-> & -> & js & ds & -> & -> & Hjs & HF);
      unfold instances in *; cbn [flat_map]; rewrite Hi.
    + simpl. repeat split. exists js, ds. auto.
    + simpl. rewrite <- !app_assoc. repeat split.
      exists ((name, start, stop) :: js), (d :: ds).
      repeat split.
      * simpl. now rewrite Hjs.
      * constructor; assumption.
Qed.

Lemma duration_of_inv (start stop : string) (d : float) :
  duration_of start stop = Ok d ->
  exists t1 t0,
    Time_mjd (drop_last 6 stop) = Ok t1
    /\ Time_mjd (drop_last 6 start) = Ok t0
    /\ d = float_mul (float_sub t1 t0) (float_of_int 86400).
Proof.
  unfold duration_of. intros H.
  apply bind_Ok_inv in H as (t1 & H1 & H). apply bind_Ok_inv in H as (t0 & H0 & H).
  injection H as <-. eauto.
Qed.

(** *** C1: the two conventions and the skipped records *)

(** A pass of the inner loop over a record with a start and a stop, and
    the whole function on a task made of that record. *)
Lemma record_step_timed (v : TaskMetadata) (arrs : list (string * list string))
  (start stop name : string) (d : float) :
  quantum_arrays v = Some arrs ->
  select_timing arrs = Ok (Some (start, stop)) ->
  first_key (metadata_keys v) = Ok name ->
  duration_of start stop = Ok d ->
  (forall jobs sl stl dur,
      record_step v (jobs, sl, stl, dur)
      = Ok ((jobs ++ [(name, start, stop)])%list, (sl ++ [start])%list,
            (stl ++ [stop])%list, (dur ++ [d])%list))
  /\ (forall k,
         get_timing_from_metadata [(k, [v])]
         = Ok ([(name, start, stop)], [start], [stop], [d])).
Proof.
  intros Hq Hs Hn Hd. split.
  - intros jobs sl stl dur. unfold record_step. rewrite Hq. cbn [bind].
    rewrite Hs. cbn [bind]. now rewrite Hn, Hd.
  - intros k. unfold get_timing_from_metadata. cbn [for_each]. unfold task_step.
    cbn [snd for_each]. unfold record_step. rewrite Hq. cbn [bind].
    rewrite Hs. cbn [bind]. now rewrite Hn, Hd.
Qed.

(** The body of the inner loop, for the arrays [start_key] and [stop_key]
    that the selected convention reads. *)
Lemma record_step_reads (v : TaskMetadata) (arrs : list (string * list string))
  (start_key stop_key : string) :
  quantum_arrays v = Some arrs ->
  select_timing arrs =
  (a <- Dict.getitem start_key arrs ;;
   start <- py_min str_lt a ;;
   b <- Dict.getitem stop_key arrs ;;
   stop <- py_max str_gt b ;;
   Ok (Some (start, stop))) ->
  forall jobs sl stl dur,
    record_step v (jobs, sl, stl, dur) =
    (a <- Dict.getitem start_key arrs ;;
     start <- py_min str_lt a ;;
     b <- Dict.getitem stop_key arrs ;;
     stop <- py_max str_gt b ;;
     name <- first_key (metadata_keys v) ;;
     d <- duration_of start stop ;;
     Ok ((jobs ++ [(name, start, stop)])%list, (sl ++ [start])%list,
         (stl ++ [stop])%list, (dur ++ [d])%list)).
Proof.
  intros Hq Hs jobs sl stl dur. unfold record_step. rewrite Hq. cbn [bind].
  rewrite Hs.
  destruct (Dict.getitem start_key arrs) as [a | e]; cbn [bind]; [| reflexivity].
  destruct (py_min str_lt a) as [start | e]; cbn [bind]; [| reflexivity].
  destruct (Dict.getitem stop_key arrs) as [b | e]; cbn [bind]; [| reflexivity].
  destruct (py_max str_gt b) as [stop | e]; reflexivity.
Qed.

(** C1.  For a record whose quantum arrays are [arrs]: with the key
    'startUtc' the pass of the loop reads 'prepUtc' and 'endUtc', and
    without it and with 'runQuantumStartCpuTime' it reads
    'runQuantumStartUtc' and 'runQuantumEndUtc'; the start is the min of
    the first array (a member that is at most every member), the stop the
    max of the second (a member that is at least every member), and the
    pass appends (label, start, stop), the start, the stop and the duration
    to the four lists of the loop, so that get_timing_from_metadata on a
    task made of this record returns exactly these values.  With neither
    key the record is skipped: the four lists of the loop stay as they
    are, and the result of get_timing_from_metadata is the one without
    the record. *)
Theorem select_timing_convention (v : TaskMetadata)
  (arrs : list (string * list string)) :
  quantum_arrays v = Some arrs ->
  (Dict.mem "startUtc" arrs = true ->
   (forall jobs sl stl dur,
       record_step v (jobs, sl, stl, dur) =
       (a <- Dict.getitem "prepUtc" arrs ;;
        start <- py_min str_lt a ;;
        b <- Dict.getitem "endUtc" arrs ;;
        stop <- py_max str_gt b ;;
        name <- first_key (metadata_keys v) ;;
        d <- duration_of start stop ;;
        Ok ((jobs ++ [(name, start, stop)])%list, (sl ++ [start])%list,
            (stl ++ [stop])%list, (dur ++ [d])%list)))
   /\ forall a b start stop name d,
        Dict.lookup "prepUtc" arrs = Some a ->
        py_min str_lt a = Ok start ->
        Dict.lookup "endUtc" arrs = Some b ->
        py_max str_gt b = Ok stop ->
        first_key (metadata_keys v) = Ok name ->
        duration_of start stop = Ok d ->
        In start a
        /\ Forall (fun x => String.leb start x = true) a
        /\ In stop b
        /\ Forall (fun x => String.leb x stop = true) b
        /\ select_timing arrs = Ok (Some (start, stop))
        /\ (forall jobs sl stl dur,
               record_step v (jobs, sl, stl, dur)
               = Ok ((jobs ++ [(name, start, stop)])%list, (sl ++ [start])%list,
                     (stl ++ [stop])%list, (dur ++ [d])%list))
        /\ (forall k,
               get_timing_from_metadata [(k, [v])]
               = Ok ([(name, start, stop)], [start], [stop], [d])))
  /\ (Dict.mem "startUtc" arrs = false ->
      Dict.mem "runQuantumStartCpuTime" arrs = true ->
      (forall jobs sl stl dur,
          record_step v (jobs, sl, stl, dur) =
          (a <- Dict.getitem "runQuantumStartUtc" arrs ;;
           start <- py_min str_lt a ;;
           b <- Dict.getitem "runQuantumEndUtc" arrs ;;
           stop <- py_max str_gt b ;;
           name <- first_key (metadata_keys v) ;;
           d <- duration_of start stop ;;
           Ok ((jobs ++ [(name, start, stop)])%list, (sl ++ [start])%list,
               (stl ++ [stop])%list, (dur ++ [d])%list)))
      /\ forall a b start stop name d,
           Dict.lookup "runQuantumStartUtc" arrs = Some a ->
           py_min str_lt a = Ok start ->
           Dict.lookup "runQuantumEndUtc" arrs = Some b ->
           py_max str_gt b = Ok stop ->
           first_key (metadata_keys v) = Ok name ->
           duration_of start stop = Ok d ->
           In start a
           /\ Forall (fun x => String.leb start x = true) a
           /\ In stop b
           /\ Forall (fun x => String.leb x stop = true) b
           /\ select_timing arrs = Ok (Some (start, stop))
           /\ (forall jobs sl stl dur,
                  record_step v (jobs, sl, stl, dur)
                  = Ok ((jobs ++ [(name, start, stop)])%list, (sl ++ [start])%list,
                        (stl ++ [stop])%list, (dur ++ [d])%list))
           /\ (forall k,
                  get_timing_from_metadata [(k, [v])]
                  = Ok ([(name, start, stop)], [start], [stop], [d])))
  /\ (Dict.mem "startUtc" arrs = false ->
      Dict.mem "runQuantumStartCpuTime" arrs = false ->
      select_timing arrs = Ok None
      /\ (forall st, record_step v st = Ok st)
      /\ (forall vv1 vv2 st,
             for_each (vv1 ++ v :: vv2)%list record_step st
             = for_each (vv1 ++ vv2)%list record_step st)
      /\ (forall pre k vv1 vv2 post,
             get_timing_from_metadata (pre ++ (k, vv1 ++ v :: vv2) :: post)%list
             = get_timing_from_metadata (pre ++ (k, vv1 ++ vv2) :: post)%list)).
Proof.
  intros Hv. split; [| split].
  - intros H.
    assert (Hsel : select_timing arrs =
                   (a <- Dict.getitem "prepUtc" arrs ;;
                    start <- py_min str_lt a ;;
                    b <- Dict.getitem "endUtc" arrs ;;
                    stop <- py_max str_gt b ;;
                    Ok (Some (start, stop)))).
    { unfold select_timing. now rewrite H. }
    split; [exact (record_step_reads v arrs _ _ Hv Hsel) |].
    intros a b start stop name d Ha Hmin Hb Hmax Hn Hd.
    assert (Hs : select_timing arrs = Ok (Some (start, stop))).
    { rewrite Hsel, (getitem_Some _ _ _ Ha). cbn [bind]. rewrite Hmin. cbn [bind].
      rewrite (getitem_Some _ _ _ Hb). cbn [bind]. now rewrite Hmax. }
    destruct (py_min_str_least _ _ Hmin) as [Hm1 Hm2].
    destruct (py_max_str_greatest _ _ Hmax) as [HM1 HM2].
    destruct (record_step_timed v arrs start stop name d Hv Hs Hn Hd) as [Hstep Htop].
    repeat split; assumption.
  - intros H1 H2.
    assert (Hsel : select_timing arrs =
                   (a <- Dict.getitem "runQuantumStartUtc" arrs ;;
                    start <- py_min str_lt a ;;
                    b <- Dict.getitem "runQuantumEndUtc" arrs ;;
                    stop <- py_max str_gt b ;;
                    Ok (Some (start, stop)))).
    { unfold select_timing. now rewrite H1, H2. }
    split; [exact (record_step_reads v arrs _ _ Hv Hsel) |].
    intros a b start stop name d Ha Hmin Hb Hmax Hn Hd.
    assert (Hs : select_timing arrs = Ok (Some (start, stop))).
    { rewrite Hsel, (getitem_Some _ _ _ Ha). cbn [bind]. rewrite Hmin. cbn [bind].
      rewrite (getitem_Some _ _ _ Hb). cbn [bind]. now rewrite Hmax. }
    destruct (py_min_str_least _ _ Hmin) as [Hm1 Hm2].
    destruct (py_max_str_greatest _ _ Hmax) as [HM1 HM2].
    destruct (record_step_timed v arrs start stop name d Hv Hs Hn Hd) as [Hstep Htop].
    repeat split; assumption.
  - intros H1 H2. split; [now apply select_timing_neither |].
    assert (Hs : skipped v = true).
    { unfold skipped. now rewrite Hv, H1, H2. }
    assert (Hloop : forall vv1 vv2 st,
               for_each (vv1 ++ v :: vv2)%list record_step st
               = for_each (vv1 ++ vv2)%list record_step st).
    { intros vv1 vv2 st. rewrite !for_each_app.
      destruct (for_each vv1 record_step st) as [st1 | e]; [| reflexivity].
      cbn [bind for_each]. now rewrite (record_step_skipped v st1 Hs). }
    split; [intros st; now apply record_step_skipped |].
    split; [exact Hloop |].
    intros pre k vv1 vv2 post. unfold get_timing_from_metadata.
    rewrite !for_each_app.
    destruct (for_each pre task_step ([], [], [], [])) as [[[[j f] l] g] | e];
      [| reflexivity].
    cbn [bind for_each]. unfold task_step at 1 3. cbn [snd]. now rewrite Hloop.
Qed.

(** *** C2: the three per-task outputs *)

(** C2.  When the inner loop over the records of a task ends with start,
    stop and duration lists and at least one record was not skipped, the
    lists hold the starts, the stops and the durations of the records
    that were not skipped, each duration being
    (mjd of the stop text without its last 6 characters
     - mjd of the start text without its last 6 characters) * 86400,
    and the task's pass appends the min of the starts (a start that is
    at most every start), the max of the stops (a stop that is at least
    every stop) and the max of the durations to the three output lists.
    For a
    task with two records of Convention A the outputs are the smaller of
    the two starts, the larger of the two stops and the larger of the
    two durations. *)
Theorem task_step_aggregates :
  (forall k vv jobs first_job last_job longest_job jobs' start_list stop_list duration,
      for_each vv record_step (jobs, [], [], [])
      = Ok (jobs', start_list, stop_list, duration) ->
      instances vv <> [] ->
      start_list = map fst (instances vv)
      /\ stop_list = map snd (instances vv)
      /\ Forall2
           (fun p d =>
              exists t1 t0,
                Time_mjd (drop_last 6 (snd p)) = Ok t1
                /\ Time_mjd (drop_last 6 (fst p)) = Ok t0
                /\ d = float_mul (float_sub t1 t0) (float_of_int 86400))
           (instances vv) duration
      /\ exists first last longest,
           py_min str_lt start_list = Ok first
           /\ py_max str_gt stop_list = Ok last
           /\ py_max float_gt duration = Ok longest
           /\ In first start_list
           /\ Forall (fun x => String.leb first x = true) start_list
           /\ In last stop_list
           /\ Forall (fun x => String.leb x last = true) stop_list
           /\ task_step (k, vv) (jobs, first_job, last_job, longest_job)
              = Ok (jobs',
                    (first_job ++ [first])%list,
                    (last_job ++ [last])%list,
                    (longest_job ++ [longest])%list))
  /\ (forall k v1 v2 arrs1 arrs2 s1 e1 s2 e2 n1 n2 d1 d2,
         quantum_arrays v1 = Some arrs1 ->
         quantum_arrays v2 = Some arrs2 ->
         Dict.mem "startUtc" arrs1 = true ->
         Dict.mem "startUtc" arrs2 = true ->
         select_timing arrs1 = Ok (Some (s1, e1)) ->
         select_timing arrs2 = Ok (Some (s2, e2)) ->
         first_key (metadata_keys v1) = Ok n1 ->
         first_key (metadata_keys v2) = Ok n2 ->
         duration_of s1 e1 = Ok d1 ->
         duration_of s2 e2 = Ok d2 ->
         get_timing_from_metadata [(k, [v1; v2])]
         = Ok ([(n1, s1, e1); (n2, s2, e2)],
               [if str_lt s2 s1 then s2 else s1],
               [if str_gt e2 e1 then e2 else e1],
               [if float_gt d2 d1 then d2 else d1])).
Proof.
  split.
  - intros k vv jobs first_job last_job longest_job jobs' start_list stop_list
      duration Hloop Hne.
    pose proof (inner_loop_lists _ _ _ _ _ _ _ _ _ Hloop)
      as (Hs & Ht & js & ds & Hj & Hd & Hjs & HF).
    simpl in Hs, Ht, Hd. subst start_list stop_list duration.
    split; [reflexivity |]. split; [reflexivity |].
    split.
    { eapply Forall2_impl; [| exact HF]. intros p d. apply duration_of_inv. }
    unfold task_step. cbn [snd]. rewrite Hloop. cbn [bind].
    destruct (instances vv) as [| p ps]; [contradiction |].
    inversion HF as [| ? d ? ds' _ _]; subst.
    destruct (py_min str_lt (map fst (p :: ps))) as [first | e] eqn:Ef;
      [| discriminate].
    destruct (py_max str_gt (map snd (p :: ps))) as [last | e] eqn:El;
      [| discriminate].
    destruct (py_max float_gt (d :: ds')) as [longest | e] eqn:Eg; [| discriminate].
    destruct (py_min_str_least _ _ Ef) as [Hf1 Hf2].
    destruct (py_max_str_greatest _ _ El) as [Hl1 Hl2].
    exists first, last, longest. cbn [bind]. repeat split; assumption || reflexivity.
  - intros k v1 v2 arrs1 arrs2 s1 e1 s2 e2 n1 n2 d1 d2
      Hq1 Hq2 _ _ Hs1 Hs2 Hn1 Hn2 Hd1 Hd2.
    unfold get_timing_from_metadata. cbn [for_each]. unfold task_step. cbn [snd for_each].
    unfold record_step at 1. rewrite Hq1. cbn [bind]. rewrite Hs1. cbn [bind].
    rewrite Hn1, Hd1. cbn [bind].
    unfold record_step. rewrite Hq2. cbn [bind]. rewrite Hs2. cbn [bind].
    rewrite Hn2, Hd2. reflexivity.
Qed.

(** *** C8: a task without a valid record *)

Lemma inner_loop_all_skipped (vv : list TaskMetadata) (st : task_state) :
  forallb skipped vv = true -> for_each vv record_step st = Ok st.
Proof.
  induction vv as [| v vv IH]; simpl; [reflexivity |].
  intros H. apply andb_prop in H as [Hv Hvv].
  rewrite (record_step_skipped v st Hv). simpl. exact (IH Hvv).
Qed.

(** C8.  For a task whose records are all skipped (an empty record list
    included), the task's pass raises ValueError, from min over the
    empty start list; get_timing_from_metadata on a mapping that holds
    such a task then returns no result, and the exception is this
    ValueError when the tasks before it pass. *)
Theorem empty_task_fails (pre post : list (string * list TaskMetadata))
  (k : string) (vv : list TaskMetadata) :
  forallb skipped vv = true ->
  (forall jobs, for_each vv record_step (jobs, [], [], []) = Ok (jobs, [], [], []))
  /\ py_min str_lt [] = Err ValueError
  /\ (forall st, task_step (k, vv) st = Err ValueError)
  /\ (exists e, get_timing_from_metadata (pre ++ (k, vv) :: post)%list = Err e)
  /\ (forall st,
         for_each pre task_step ([], [], [], []) = Ok st ->
         get_timing_from_metadata (pre ++ (k, vv) :: post)%list = Err ValueError).
Proof.
  intros Hs.
  assert (Hstep : forall st, task_step (k, vv) st = Err ValueError).
  { intros [[[jobs f] l] g]. unfold task_step. cbn [snd].
    now rewrite (inner_loop_all_skipped vv _ Hs). }
  split; [intros jobs; now apply inner_loop_all_skipped |].
  split; [reflexivity |].
  split; [exact Hstep |].
  unfold get_timing_from_metadata. rewrite for_each_app. split.
  - destruct (for_each pre task_step ([], [], [], [])) as [st | e]; cbn [bind for_each].
    + rewrite Hstep. simpl. eauto.
    + eauto.
  - intros st ->. cbn [bind for_each]. now rewrite Hstep.
Qed.

(** *** C10: the empty mapping *)

(** C10.  On an empty mapping get_timing_from_metadata returns four empty
    lists. *)
Theorem get_timing_from_metadata_empty :
  get_timing_from_metadata [] = Ok ([], [], [], []).
Proof. reflexivity. Qed.

End TimingProperties.

(** ** get_task_metadata *)

Section FetchProperties.
Context {service : ButlerService}.

Lemma fetch_seq_app (butler : client) (l1 l2 : list request) :
  fetch_seq butler (l1 ++ l2)%list =
  match fetch_seq butler l1 with
  | (Err e, made) => (Err e, made)
  | (Ok r1, made1) =>
      match fetch_seq butler l2 with
      | (Ok r2, made2) => (Ok (r1 ++ r2)%list, (made1 ++ made2)%list)
      | (Err e, made2) => (Err e, (made1 ++ made2)%list)
      end
  end.
Proof.
  induction l1 as [| rq tl IH]; simpl.
  - destruct (fetch_seq butler l2) as [[r2 | e] made2]; reflexivity.
  - destruct (butler_get butler rq) as [r | e]; [| reflexivity].
    rewrite IH. destruct (fetch_seq butler tl) as [[r1 | e] made1]; [| reflexivity].
    destruct (fetch_seq butler l2) as [[r2 | e] made2]; reflexivity.
Qed.

Lemma fetch_seq_Ok (butler : client) (rqs : list request) :
  Forall (answered butler) rqs ->
  exists recs,
    fetch_seq butler rqs = (Ok recs, rqs)
    /\ Forall2 (fun rq r => butler_get butler rq = Ok r) rqs recs.
Proof.
  induction 1 as [| rq tl Hrq _ (recs & IH & HF)]; simpl.
  - exists []. split; [reflexivity | constructor].
  - unfold answered in Hrq. destruct (butler_get butler rq) as [r | e] eqn:E;
      [| discriminate].
    rewrite IH. exists (r :: recs). split; [reflexivity | constructor; assumption].
Qed.

Lemma fetch_seq_Ok_inv (butler : client) (rqs : list request)
  (recs : list TaskMetadata) (made : list request) :
  fetch_seq butler rqs = (Ok recs, made) ->
  made = rqs
  /\ Forall (answered butler) rqs
  /\ Forall2 (fun rq r => butler_get butler rq = Ok r) rqs recs.
Proof.
  revert recs made. induction rqs as [| rq tl IH]; simpl; intros recs made H.
  - injection H as <- <-. repeat constructor.
  - destruct (butler_get butler rq) as [r | e] eqn:E; [| discriminate].
    destruct (fetch_seq butler tl) as [[recs' | e] made'] eqn:Etl; [| discriminate].
    injection H as <- <-. destruct (IH _ _ eq_refl) as (-> & HA & HF).
    split; [reflexivity |]. split; constructor; try assumption.
    unfold answered. now rewrite E.
Qed.

Lemma fetch_seq_Err_inv (butler : client) (rqs : list request) (e : pyerr)
  (made : list request) :
  fetch_seq butler rqs = (Err e, made) ->
  exists done rq rest,
    rqs = (done ++ rq :: rest)%list
    /\ Forall (answered butler) done
    /\ butler_get butler rq = Err e
    /\ made = (done ++ [rq])%list.
Proof.
  revert made. induction rqs as [| rq tl IH]; simpl; intros made H; [discriminate |].
  destruct (butler_get butler rq) as [r | e'] eqn:E.
  - destruct (fetch_seq butler tl) as [[recs' | e'] made'] eqn:Etl; [discriminate |].
    injection H as <- <-.
    destruct (IH _ eq_refl) as (done & rq' & rest & -> & HA & He & ->).
    exists (rq :: done), rq', rest. repeat split; try assumption.
    constructor; [| assumption]. unfold answered. now rewrite E.
  - injection H as <- <-. exists [], rq, tl. repeat split; [constructor | assumption].
Qed.

Lemma fetch_seq_Err (butler : client) (done rest : list request) (rq : request)
  (e : pyerr) :
  Forall (answered butler) done ->
  butler_get butler rq = Err e ->
  fetch_seq butler (done ++ rq :: rest)%list = (Err e, (done ++ [rq])%list).
Proof.
  intros HA He. rewrite fetch_seq_app.
  destruct (fetch_seq_Ok _ _ HA) as (recs & -> & _). simpl. now rewrite He.
Qed.

Variables (butler : client) (collection : string).

Lemma detector_loop (task : string) (visit : Z) (detector_list : list Z)
  (acc : list TaskMetadata) (log : list request) :
  io_for_each detector_list
    (fun detector task_md =>
       io_bind
         (fetch butler
            {| dataset := task ++ "_metadata";
               exposure := visit;
               visit := visit;
               detector := detector;
               collections := collection |})
         (fun r => io_ret (task_md ++ [r])%list))
    acc log
  = appended butler (requests_for collection task [visit] detector_list) acc log.
Proof.
  unfold appended, requests_for. cbn [flat_map]. rewrite app_nil_r.
  revert acc log. induction detector_list as [| det dets IH]; intros acc log.
  - simpl. unfold io_ret. now rewrite !app_nil_r.
  - cbn [io_for_each map fetch_seq]. unfold io_bind at 1. unfold io_bind at 1, fetch.
    destruct (butler_get butler _) as [r | e]; [| reflexivity].
    unfold io_ret at 1. rewrite IH.
    destruct (fetch_seq butler _) as [[recs | e] made];
      now rewrite <- !app_assoc.
Qed.

Lemma visit_loop (task : string) (visit_list detector_list : list Z)
  (acc : list TaskMetadata) (log : list request) :
  io_for_each visit_list
    (fun visit task_md =>
       io_for_each detector_list
         (fun detector task_md =>
            io_bind
              (fetch butler
                 {| dataset := task ++ "_metadata";
                    exposure := visit;
                    visit := visit;
                    detector := detector;
                    collections := collection |})
              (fun r => io_ret (task_md ++ [r])%list))
         task_md)
    acc log
  = appended butler (requests_for collection task visit_list detector_list) acc log.
Proof.
  revert acc log. induction visit_list as [| v vs IH]; intros acc log.
  - unfold appended. simpl. unfold io_ret. now rewrite !app_nil_r.
  - cbn [io_for_each]. unfold io_bind at 1. rewrite detector_loop.
    unfold appended, requests_for. cbn [flat_map]. rewrite app_nil_r, fetch_seq_app.
    destruct (fetch_seq butler (map _ detector_list)) as [[r1 | e] made1];
      [| reflexivity].
    rewrite IH. unfold appended, requests_for.
    destruct (fetch_seq butler _) as [[r2 | e] made2]; now rewrite <- !app_assoc.
Qed.

Lemma task_loop (task_list : list string) (visit_list detector_list : list Z)
  (md : list (string * list TaskMetadata)) (log : list request) :
  io_for_each task_list
    (fun task md =>
       io_bind
         (io_for_each visit_list
            (fun visit task_md =>
               io_for_each detector_list
                 (fun detector task_md =>
                    io_bind
                      (fetch butler
                         {| dataset := task ++ "_metadata";
                            exposure := visit;
                            visit := visit;
                            detector := detector;
                            collections := collection |})
                      (fun r => io_ret (task_md ++ [r])%list))
                 task_md)
            [])
         (fun task_md => io_ret (Dict.setitem task task_md md)))
    md log
  = match fetch_seq butler (all_requests collection task_list visit_list detector_list)
    with
    | (Ok _, made) =>
        (Ok (fold_left
               (fun md task =>
                  Dict.setitem task
                    (records_for butler collection task visit_list detector_list) md)
               task_list md),
         (log ++ made)%list)
    | (Err e, made) => (Err e, (log ++ made)%list)
    end.
Proof.
  revert md log. induction task_list as [| task tasks IH]; intros md log.
  - simpl. unfold io_ret. now rewrite app_nil_r.
  - cbn [io_for_each]. unfold io_bind at 1. unfold io_bind at 1.
    rewrite visit_loop. unfold appended, all_requests. cbn [flat_map fold_left].
    rewrite fetch_seq_app. unfold records_for at 2.
    destruct (fetch_seq butler (requests_for collection task visit_list detector_list))
      as [[recs | e] made]; [| reflexivity].
    unfold io_ret at 1. rewrite IH. unfold all_requests. cbn [fst app].
    destruct (fetch_seq butler _) as [[recs' | e] made']; now rewrite <- !app_assoc.
Qed.

Lemma lookup_fold_setitem {V : Type} (g : string -> V) (keys : list string) :
  forall (md : list (string * V)) (k : string),
    Dict.lookup k (fold_left (fun md key => Dict.setitem key (g key) md) keys md)
    = if in_dec string_dec k keys then Some (g k) else Dict.lookup k md.
Proof.
  induction keys as [| key keys IH]; intros md k; [reflexivity |].
  cbn [fold_left]. rewrite IH.
  destruct (in_dec string_dec k keys) as [Hin | Hnin];
    destruct (in_dec string_dec k (key :: keys)) as [Hin' | Hnin'];
    try reflexivity.
  - destruct Hnin'. now right.
  - destruct Hin' as [-> | Hin']; [apply lookup_setitem_same | contradiction].
  - apply lookup_setitem_other. intros ->. apply Hnin'. now left.
Qed.

Lemma length_requests_for (task : string) (visit_list detector_list : list Z) :
  length (requests_for collection task visit_list detector_list)
  = length visit_list * length detector_list.
Proof.
  unfold requests_for. induction visit_list as [| v vs IH]; [reflexivity |].
  cbn [flat_map]. rewrite length_app, length_map, IH. reflexivity.
Qed.

(** The request of the [i]-th visit and the [j]-th detector is at
    position [i * length detector_list + j]. *)
Lemma nth_requests_for (task : string) (visit_list detector_list : list Z)
  (i j : nat) (v d : Z) :
  nth_error visit_list i = Some v ->
  nth_error detector_list j = Some d ->
  nth_error (requests_for collection task visit_list detector_list)
    (i * length detector_list + j)
  = Some {| dataset := task ++ "_metadata";
            exposure := v;
            visit := v;
            detector := d;
            collections := collection |}.
Proof.
  intros Hv Hd.
  assert (Hj : j < length detector_list).
  { apply nth_error_Some. congruence. }
  revert i Hv. unfold requests_for.
  induction visit_list as [| v0 vs IH]; intros i Hv.
  - destruct i; discriminate.
  - cbn [flat_map]. destruct i as [| i].
    + injection Hv as ->. simpl Nat.mul. simpl Nat.add.
      rewrite nth_error_app1 by (rewrite length_map; exact Hj).
      now rewrite nth_error_map, Hd.
    + simpl in Hv. rewrite nth_error_app2 by (rewrite length_map; simpl; lia).
      rewrite length_map.
      replace (S i * length detector_list + j - length detector_list)
        with (i * length detector_list + j) by (simpl; lia).
      exact (IH i Hv).
Qed.

Lemma Forall_flat_map_block {A B : Type} (P : B -> Prop) (f : A -> list B)
  (l : list A) (x : A) :
  Forall P (flat_map f l) -> In x l -> Forall P (f x).
Proof.
  rewrite !Forall_forall. intros H Hx y Hy. apply H. apply in_flat_map. eauto.
Qed.

(** *** C9 *)

(** C9.  With a client opened, when every request has a record,
    get_task_metadata returns a mapping that gives each task of task_list
    the records of its requests (dataset '{task}_metadata', one request
    per pair, so length visit_list * length detector_list records), and
    no other key; the requests made are those of the tasks in order, each
    once, the request of visit [i] and detector [j] at position
    [i * length detector_list + j] of its task.  When a request is
    answered with an exception, that exception is the result and no
    request is made after it.  An exception of the constructor is the
    result as well. *)
Theorem get_task_metadata_fetches (butler_path : string) (task_list : list string)
  (visit_list detector_list : list Z) (log : list request) :
  (forall e,
      Butler butler_path collection = Err e ->
      get_task_metadata butler_path collection task_list visit_list detector_list log
      = (Err e, log))
  /\ (Butler butler_path collection = Ok butler ->
      (Forall (answered butler)
         (all_requests collection task_list visit_list detector_list) ->
       exists md,
         get_task_metadata butler_path collection task_list visit_list detector_list log
         = (Ok md,
            (log ++ all_requests collection task_list visit_list detector_list)%list)
         /\ (forall task,
                In task task_list ->
                exists recs,
                  Dict.lookup task md = Some recs
                  /\ Forall2 (fun rq r => butler_get butler rq = Ok r)
                       (requests_for collection task visit_list detector_list) recs
                  /\ length recs = length visit_list * length detector_list)
         /\ (forall task, ~ In task task_list -> Dict.lookup task md = None))
      /\ (forall done rq rest e,
             all_requests collection task_list visit_list detector_list
             = (done ++ rq :: rest)%list ->
             Forall (answered butler) done ->
             butler_get butler rq = Err e ->
             get_task_metadata butler_path collection task_list visit_list
               detector_list log
             = (Err e, (log ++ done ++ [rq])%list)))
  /\ (forall task i j v d,
         nth_error visit_list i = Some v ->
         nth_error detector_list j = Some d ->
         nth_error (requests_for collection task visit_list detector_list)
           (i * length detector_list + j)
         = Some {| dataset := task ++ "_metadata";
                   exposure := v;
                   visit := v;
                   detector := d;
                   collections := collection |}).
Proof.
  split; [| split].
  - intros e He. unfold get_task_metadata, io_bind, io_lift. now rewrite He.
  - intros Hb.
    assert (Hrun :
      get_task_metadata butler_path collection task_list visit_list detector_list log
      = match fetch_seq butler
                (all_requests collection task_list visit_list detector_list)
        with
        | (Ok _, made) =>
            (Ok (fold_left
                   (fun md task =>
                      Dict.setitem task
                        (records_for butler collection task visit_list detector_list)
                        md)
                   task_list []),
             (log ++ made)%list)
        | (Err e, made) => (Err e, (log ++ made)%list)
        end).
    { unfold get_task_metadata. unfold io_bind at 1. unfold io_lift. rewrite Hb.
      apply task_loop. }
    split.
    + intros HA. destruct (fetch_seq_Ok _ _ HA) as (recs & Hf & _).
      rewrite Hrun, Hf. eexists. split; [reflexivity |]. split.
      * intros task Hin. rewrite lookup_fold_setitem.
        destruct (in_dec string_dec task task_list) as [_ | Hn]; [| contradiction].
        pose proof (Forall_flat_map_block _ _ _ _ HA Hin) as HAt.
        destruct (fetch_seq_Ok _ _ HAt) as (recs_t & Hft & HF).
        exists recs_t. unfold records_for. rewrite Hft. cbn [fst].
        split; [reflexivity |]. split; [exact HF |].
        rewrite (Forall2_length_eq _ _ _ HF). apply length_requests_for.
      * intros task Hn. rewrite lookup_fold_setitem.
        destruct (in_dec string_dec task task_list); [contradiction | reflexivity].
    + intros done rq rest e Hsplit HA He.
      rewrite Hrun, Hsplit, (fetch_seq_Err _ _ _ _ _ HA He). reflexivity.
  - intros task i j v d. apply nth_requests_for.
Qed.

End FetchProperties.

(** ** The properties at the examples *)

Lemma add_property_object_blocks_witness :
  Dict.lookup "type" ex_object = Some (PyStr "object")
  /\ exists blocks,
       length blocks = 2
       /\ add_property "offsets" (PyDict ex_object) 1 =
          Ok ("  offsets:" ++ nl
              ++ "    description: Offsets" ++ nl
              ++ "    type: object" ++ nl
              ++ "    properties:" ++ nl
              ++ concat_blocks blocks)
       /\ Forall2 (fun kv b => exists body, b = "      " ++ fst kv ++ ":" ++ nl ++ body)
            [("x", PyDict [("description", PyStr "X offset");
                           ("type", PyStr "number");
                           ("default", PyInt 0)]);
             ("label", PyDict [("description", PyStr "Label");
                               ("type", PyStr "string");
                               ("default", PyStr "none")])]
            blocks.
Proof.
  split; [reflexivity |].
  destruct (add_property_object_blocks "offsets" ex_object 1 (PyStr "Offsets") _
              eq_refl eq_refl eq_refl) as [Htext Hblocks].
  destruct (proj1 (Htext _) eq_refl) as (blocks & HF & Hs).
  destruct (Hblocks blocks HF) as [Hlen Hind].
  exists blocks. split; [exact Hlen |]. split; [| exact Hind].
  apply (proj2 (Htext _)). exists blocks. split; [exact HF | reflexivity].
Defined.

Lemma add_property_array_items_witness :
  Dict.lookup "items" ex_array = Some (PyDict ex_items)
  /\ Dict.lookup "description" ex_items = Some (PyStr "one value")
  /\ add_property "values" (PyDict ex_array) 1 =
     Ok ("  values:" ++ nl
         ++ "    description: Values" ++ nl
         ++ "    type: array" ++ nl
         ++ "    items:" ++ nl
         ++ "      type: number" ++ nl
         ++ "      maximum: 10" ++ nl).
Proof.
  split; [reflexivity |]. split; [reflexivity |].
  exact (proj1 (add_property_array_items "values" ex_array 1 (PyStr "Values") ex_items
                  (PyStr "number") eq_refl eq_refl eq_refl eq_refl)).
Defined.

Lemma add_property_default_quoting_witness :
  Dict.lookup "default" ex_string = Some (PyStr "r")
  /\ add_property "filter" (PyDict ex_string) 1 =
     Ok ("  filter:" ++ nl
         ++ "    description: Filter name" ++ nl
         ++ "    type: string" ++ nl
         ++ "    default: " ++ String dquote ("r" ++ String dquote "") ++ nl).
Proof.
  split; [reflexivity |].
  destruct (add_property_default_quoting "filter" ex_string 1 (PyStr "Filter name")
              (PyStr "string") (PyStr "r") eq_refl eq_refl eq_refl)
    as (value & Hquoted & _ & _ & Hscalar).
  rewrite (Hscalar eq_refl eq_refl), (Hquoted eq_refl). reflexivity.
Defined.

Lemma add_property_missing_required_witness :
  nested_in ex_missing (PyDict [("type", PyStr "number")])
  /\ exists e,
       build_configuration_schema 3 ex_missing = Err e
       /\ (e = KeyError "description" \/ e = KeyError "type").
Proof.
  assert (Hn : nested_in ex_missing (PyDict [("type", PyStr "number")])).
  { eapply nested_below with (name := "outer");
      [left; reflexivity | reflexivity | reflexivity |].
    apply nested_top with (name := "y"). left. reflexivity. }
  split; [exact Hn |].
  destruct (proj2 (proj2 add_property_missing_required) 3%Z ex_missing _ Hn
              (or_introl eq_refl)) as (e & He & Hk).
  exists e. split; [exact He |]. apply Hk.
  intros name v [[= <- <-] | []]. reflexivity.
Defined.

Lemma select_timing_convention_witness :
  (Dict.mem "startUtc" arrs_a1 = true
   /\ get_timing_from_metadata (ops := int_days) [("isr", [rec_a1])]
      = Ok ([("isr:1", "101+00:00", "105+00:00")], ["101+00:00"], ["105+00:00"],
            [345600%Z]))
  /\ (Dict.mem "startUtc" arrs_b = false
      /\ Dict.mem "runQuantumStartCpuTime" arrs_b = true
      /\ get_timing_from_metadata (ops := int_days) [("calc", [rec_b])]
         = Ok ([("calc:1", "200+00:00", "203+00:00")], ["200+00:00"], ["203+00:00"],
               [259200%Z]))
  /\ (Dict.mem "startUtc" arrs_noop = false
      /\ Dict.mem "runQuantumStartCpuTime" arrs_noop = false
      /\ get_timing_from_metadata (ops := int_days) [("isr", [rec_a1; rec_noop; rec_a2])]
         = get_timing_from_metadata (ops := int_days) [("isr", [rec_a1; rec_a2])]).
Proof.
  split; [| split].
  - split; [reflexivity |].
    destruct (proj1 (select_timing_convention (ops := int_days) rec_a1 arrs_a1 eq_refl)
                eq_refl) as [_ H].
    destruct (H _ _ _ _ _ _ eq_refl eq_refl eq_refl eq_refl eq_refl eq_refl)
      as (_ & _ & _ & _ & _ & _ & Htop).
    exact (Htop "isr").
  - split; [reflexivity |]. split; [reflexivity |].
    destruct (proj1 (proj2 (select_timing_convention (ops := int_days) rec_b arrs_b
                              eq_refl)) eq_refl eq_refl) as [_ H].
    destruct (H _ _ _ _ _ _ eq_refl eq_refl eq_refl eq_refl eq_refl eq_refl)
      as (_ & _ & _ & _ & _ & _ & Htop).
    exact (Htop "calc").
  - split; [reflexivity |]. split; [reflexivity |].
    destruct (proj2 (proj2 (select_timing_convention (ops := int_days) rec_noop arrs_noop
                              eq_refl)) eq_refl eq_refl) as (_ & _ & _ & Htop).
    exact (Htop [] "isr" [rec_a1] [rec_a2] []).
Defined.

Lemma task_step_aggregates_witness :
  instances [rec_a1; rec_noop; rec_a2] <> []
  /\ task_step (ops := int_days) ("isr", [rec_a1; rec_noop; rec_a2]) ([], [], [], [])
     = Ok ([("isr:1", "101+00:00", "105+00:00"); ("isr:2", "100+00:00", "110+00:00")],
           ["100+00:00"], ["110+00:00"], [864000%Z])
  /\ get_timing_from_metadata (ops := int_days) [("isr", [rec_a1; rec_a2])]
     = Ok ([("isr:1", "101+00:00", "105+00:00"); ("isr:2", "100+00:00", "110+00:00")],
           ["100+00:00"], ["110+00:00"], [864000%Z]).
Proof.
  assert (Hne : instances [rec_a1; rec_noop; rec_a2] <> []) by discriminate.
  split; [exact Hne |]. split.
  - destruct (proj1 (task_step_aggregates (ops := int_days))
                "isr" [rec_a1; rec_noop; rec_a2] [] [] [] [] _ _ _ _ eq_refl Hne)
      as (_ & _ & _ & first & last & longest & Hf & Hl & Hg & _ & _ & _ & _ & Hstep).
    injection Hf as <-. injection Hl as <-. injection Hg as <-. exact Hstep.
  - exact (proj2 (task_step_aggregates (ops := int_days))
             "isr" rec_a1 rec_a2 arrs_a1 arrs_a2 _ _ _ _ _ _ _ _
             eq_refl eq_refl eq_refl eq_refl eq_refl eq_refl eq_refl eq_refl
             eq_refl eq_refl).
Defined.

Lemma empty_task_fails_witness :
  forallb skipped [rec_noop] = true
  /\ get_timing_from_metadata (ops := int_days)
       [("isr", [rec_a1]); ("intra", [rec_noop]); ("calc", [rec_b])]
     = Err ValueError.
Proof.
  split; [reflexivity |].
  destruct (empty_task_fails (ops := int_days) [("isr", [rec_a1])] [("calc", [rec_b])]
              "intra" [rec_noop] eq_refl) as (_ & _ & _ & _ & H).
  exact (H _ eq_refl).
Defined.

Lemma get_task_metadata_fetches_witness :
  (exists md,
      get_task_metadata (service := toy_service) "/repo" "run" ["isr"] [10; 20]%Z [1; 2]%Z []
      = (Ok md, all_requests "run" ["isr"] [10; 20]%Z [1; 2]%Z)
      /\ exists recs, Dict.lookup "isr" md = Some recs /\ length recs = 4)
  /\ get_task_metadata (service := toy_service) "/repo" "run" ["isr"] [10; 20]%Z
       [1; -2; 3]%Z []
     = (Err (ExternalError "not found"),
        [mkRequest "isr_metadata" 10 10 1 "run"; mkRequest "isr_metadata" 10 10 (-2) "run"]).
Proof.
  split.
  - destruct (get_task_metadata_fetches (service := toy_service) tt "run" "/repo" ["isr"]
                [10; 20]%Z [1; 2]%Z []) as (_ & H & _).
    destruct (H eq_refl) as [Hok _].
    destruct Hok as (md & Hrun & Hrec & _).
    { repeat constructor. }
    exists md. split; [exact Hrun |].
    destruct (Hrec "isr" (or_introl eq_refl)) as (recs & Hl & _ & Hlen).
    exists recs. split; [exact Hl | exact Hlen].
  - destruct (get_task_metadata_fetches (service := toy_service) tt "run" "/repo" ["isr"]
                [10; 20]%Z [1; -2; 3]%Z []) as (_ & H & _).
    destruct (H eq_refl) as [_ Herr].
    apply (Herr [mkRequest "isr_metadata" 10 10 1 "run"]
             (mkRequest "isr_metadata" 10 10 (-2) "run")
             (skipn 2 (all_requests "run" ["isr"] [10; 20]%Z [1; -2; 3]%Z))
             (ExternalError "not found")).
    + reflexivity.
    + repeat constructor.
    + reflexivity.
Defined.

(** * Further properties *)

(** ** add_property and build_configuration_schema *)

(** Induction over the descriptors add_property visits: a property of a
    dict may assume the property of the members of its 'properties'. *)
Lemma descriptor_ind (P : pyval -> Prop) :
  (forall v, (forall d, v <> PyDict d) -> P v) ->
  (forall d,
      (forall ps, Dict.lookup "properties" d = Some (PyDict ps) ->
                  Forall (fun kv => P (snd kv)) ps) ->
      P (PyDict d)) ->
  forall v, P v.
Proof.
  intros Hother Hdict v.
  enough (HQ : P v /\ forall ps, v = PyDict ps -> Forall (fun kv => P (snd kv)) ps)
    by exact (proj1 HQ).
  induction v as [| | | | | l _ | d IH] using pyval_nested_ind;
    try (split; [apply Hother; discriminate | intros ? [=]]).
  assert (Hall : Forall (fun kv => P (snd kv)) d).
  { eapply Forall_impl; [| exact IH]. intros kv HQ. exact (proj1 HQ). }
  split; [| intros ps [= <-]; exact Hall].
  apply Hdict. intros ps Hp. apply lookup_In in Hp.
  rewrite Forall_forall in IH. exact (proj2 (IH _ Hp) ps eq_refl).
Qed.

Lemma str_app_inv_head (a b c : string) : a ++ b = a ++ c -> b = c.
Proof.
  induction a as [| x a IH]; simpl; intros H; [exact H |].
  injection H as H. exact (IH H).
Qed.

Lemma concat_items_app {V : Type} (f : string -> V -> result string)
  (ps1 ps2 : list (string * V)) :
  concat_items f (ps1 ++ ps2)%list =
  (r1 <- concat_items f ps1 ;; r2 <- concat_items f ps2 ;; Ok (r1 ++ r2)).
Proof.
  induction ps1 as [| [k v] tl IH]; simpl.
  - destruct (concat_items f ps2); reflexivity.
  - destruct (f k v) as [s | e]; simpl; [| reflexivity].
    rewrite IH. destruct (concat_items f tl) as [r1 | e]; simpl; [| reflexivity].
    destruct (concat_items f ps2) as [r2 | e]; simpl; [| reflexivity].
    now rewrite str_app_assoc.
Qed.

(** X1.  add_property reads the keys 'description', 'type', 'default',
    'items' and 'properties' and no other: two descriptors that agree on
    these five give the same result, text or exception. *)
Theorem add_property_reads_five_keys (prop_name : string)
  (d d' : list (string * pyval)) (indent_level : nat) :
  agree_on descriptor_keys d d' ->
  add_property prop_name (PyDict d') indent_level
  = add_property prop_name (PyDict d) indent_level.
Proof.
  intros H. rewrite !add_property_unfold.
  unfold Dict.getitem, default_lines, items_lines, properties_lines.
  rewrite (H "description"), (H "type"), (H "default"), (H "items"), (H "properties");
    unfold descriptor_keys; simpl; auto 10.
Qed.

(** X2.  The key 'items' counts only for the type 'array' and the key
    'properties' only for the type 'object': for any other type, setting
    the key to any value leaves the result as it is. *)
Theorem add_property_container_keys_by_type (prop_name : string)
  (d : list (string * pyval)) (indent_level : nat) (type x : pyval) :
  Dict.lookup "type" d = Some type ->
  (eq_str type "array" = false ->
   add_property prop_name (PyDict (Dict.setitem "items" x d)) indent_level
   = add_property prop_name (PyDict d) indent_level)
  /\ (eq_str type "object" = false ->
      add_property prop_name (PyDict (Dict.setitem "properties" x d)) indent_level
      = add_property prop_name (PyDict d) indent_level).
Proof.
  intros Ht. split; intros Hty; rewrite !add_property_unfold;
    unfold Dict.getitem, default_lines, items_lines, properties_lines.
  - rewrite (lookup_setitem_other "items" "description") by discriminate.
    rewrite (lookup_setitem_other "items" "type") by discriminate.
    rewrite (lookup_setitem_other "items" "default") by discriminate.
    rewrite (lookup_setitem_other "items" "properties") by discriminate.
    rewrite Ht. destruct (Dict.lookup "description" d); [| reflexivity].
    cbn [bind]. now rewrite Hty.
  - rewrite (lookup_setitem_other "properties" "description") by discriminate.
    rewrite (lookup_setitem_other "properties" "type") by discriminate.
    rewrite (lookup_setitem_other "properties" "default") by discriminate.
    rewrite (lookup_setitem_other "properties" "items") by discriminate.
    rewrite Ht. destruct (Dict.lookup "description" d); [| reflexivity].
    cbn [bind]. now rewrite Hty.
Qed.

(** X3.  Malformed containers: for an array-typed descriptor, 'items'
    that is a dict without 'type' raises KeyError('type') and 'items' that
    is not a dict raises TypeError; for an object-typed descriptor,
    'properties' that is not a dict raises AttributeError. *)
Theorem add_property_malformed_container (prop_name : string)
  (d : list (string * pyval)) (indent_level : nat) (description : pyval) :
  Dict.lookup "description" d = Some description ->
  (forall item_details,
      Dict.lookup "type" d = Some (PyStr "array") ->
      Dict.lookup "items" d = Some (PyDict item_details) ->
      Dict.lookup "type" item_details = None ->
      add_property prop_name (PyDict d) indent_level = Err (KeyError "type"))
  /\ (forall v,
         Dict.lookup "type" d = Some (PyStr "array") ->
         Dict.lookup "items" d = Some v ->
         (forall item_details, v <> PyDict item_details) ->
         add_property prop_name (PyDict d) indent_level = Err TypeError)
  /\ (forall v,
         Dict.lookup "type" d = Some (PyStr "object") ->
         Dict.lookup "properties" d = Some v ->
         (forall ps, v <> PyDict ps) ->
         add_property prop_name (PyDict d) indent_level = Err AttributeError).
Proof.
  intros Hd. repeat split.
  - intros it Ht Hi Hit. rewrite add_property_unfold.
    rewrite (getitem_Some _ _ _ Hd), (getitem_Some _ _ _ Ht).
    unfold items_lines. simpl bind. now rewrite Hi, (getitem_None _ _ Hit).
  - intros v Ht Hi Hv. rewrite add_property_unfold.
    rewrite (getitem_Some _ _ _ Hd), (getitem_Some _ _ _ Ht).
    unfold items_lines. simpl bind. rewrite Hi.
    destruct v; try reflexivity. now destruct (Hv d0).
  - intros v Ht Hp Hv. rewrite add_property_unfold.
    rewrite (getitem_Some _ _ _ Hd), (getitem_Some _ _ _ Ht).
    unfold items_lines, properties_lines. simpl bind. rewrite Hp.
    destruct v; try reflexivity. now destruct (Hv d0).
Qed.

(** X4.  The property name is written on the first line and nowhere else:
    the text for another name is the same text with the other name on its
    first line. *)
Theorem add_property_name_only_in_first_line (prop_name : string) (v : pyval)
  (indent_level : nat) (s : string) :
  add_property prop_name v indent_level = Ok s ->
  exists body,
    s = spaces indent_level ++ prop_name ++ ":" ++ nl ++ body
    /\ forall other_name,
         add_property other_name v indent_level
         = Ok (spaces indent_level ++ other_name ++ ":" ++ nl ++ body).
Proof.
  destruct v; try discriminate.
  rewrite add_property_unfold. intros H.
  apply bind_Ok_inv in H as (description & Hd & H).
  apply bind_Ok_inv in H as (type & Ht & H).
  apply bind_Ok_inv in H as (items & Hi & H).
  apply bind_Ok_inv in H as (nested & Hn & H).
  injection H as <-.
  exists (spaces indent_level ++ "  description: " ++ py_str description ++ nl
          ++ spaces indent_level ++ "  type: " ++ py_str type ++ nl
          ++ default_lines (spaces indent_level) type d ++ items ++ nested).
  split.
  - unfold head_lines. now rewrite !str_app_assoc.
  - intros other_name. rewrite add_property_unfold, Hd. cbn [bind].
    rewrite Ht. cbn [bind]. rewrite Hi. cbn [bind]. rewrite Hn. cbn [bind].
    unfold head_lines. now rewrite !str_app_assoc.
Qed.

Lemma ends_nl_app_r (a b : string) :
  (exists t, b = t ++ nl) -> exists t, a ++ b = t ++ nl.
Proof. intros (t & ->). exists (a ++ t). now rewrite str_app_assoc. Qed.

Lemma ends_nl_nl_whole (rest : string) :
  whole_lines rest -> exists t, nl ++ rest = t ++ nl.
Proof.
  intros [-> | (u & ->)].
  - exists "". reflexivity.
  - exists (nl ++ u). now rewrite str_app_assoc.
Qed.

Lemma ends_nl_app_whole (a b : string) :
  (exists t, a = t ++ nl) -> whole_lines b -> exists t, a ++ b = t ++ nl.
Proof.
  intros (t & ->) [-> | (u & ->)].
  - exists t. now rewrite str_app_nil_r.
  - exists ((t ++ nl) ++ u). now rewrite !str_app_assoc.
Qed.

Lemma whole_lines_app (a b : string) :
  whole_lines a -> whole_lines b -> whole_lines (a ++ b).
Proof.
  intros [-> | Ha] Hb; [exact Hb |]. right. now apply ends_nl_app_whole.
Qed.

Lemma ends_nl_cons (c : ascii) (s : string) :
  (exists t, s = t ++ nl) -> exists t, String c s = t ++ nl.
Proof. intros (t & ->). now exists (String c t). Qed.

Lemma ends_nl_cons_whole (s : string) :
  whole_lines s -> exists t, String (ascii_of_nat 10) s = t ++ nl.
Proof. exact (ends_nl_nl_whole s). Qed.

(** Walks to the end of a text built with [++]; [tac] shows that what
    follows a line feed is made of whole lines. *)
Ltac ends_nl tac :=
  lazymatch goal with
  | |- exists t, ?a ++ nl = t ++ nl => exists a; reflexivity
  | |- exists t, nl ++ ?s = t ++ nl =>
      first [apply ends_nl_nl_whole; solve [tac] | apply ends_nl_app_r; ends_nl tac]
  | |- exists t, ?a ++ ?b = t ++ nl => apply ends_nl_app_r; ends_nl tac
  | |- exists t, String (ascii_of_nat 10) ?s = t ++ nl =>
      first [apply ends_nl_cons_whole; solve [tac] | apply ends_nl_cons; ends_nl tac]
  | |- exists t, String _ ?s = t ++ nl => apply ends_nl_cons; ends_nl tac
  end.

Lemma bound_line_whole (indent k : string) (it : list (string * pyval)) :
  whole_lines (bound_line indent k it).
Proof.
  unfold bound_line. destruct (Dict.lookup k it) as [b |]; [| now left].
  right. ends_nl fail.
Qed.

Lemma items_lines_whole (indent : string) (type : pyval) (d : list (string * pyval))
  (items : string) :
  items_lines indent type d = Ok items -> whole_lines items.
Proof.
  unfold items_lines. destruct (eq_str type "array"); [| intros [= <-]; now left].
  destruct (Dict.lookup "items" d) as [[| | | | | | it] |]; try discriminate;
    [| intros [= <-]; now left].
  destruct (Dict.getitem "type" it) as [ty | e]; [| discriminate].
  cbn [bind]. intros [= <-].
  right. ends_nl ltac:(apply whole_lines_app; apply bound_line_whole).
Qed.

Lemma concat_blocks_whole (blocks : list string) :
  Forall (fun b => exists t, b = t ++ nl) blocks -> whole_lines (concat_blocks blocks).
Proof.
  induction 1 as [| b bs Hb _ IH]; simpl; [now left |].
  right. now apply ends_nl_app_whole.
Qed.

(** X5.  The text add_property returns is not empty and ends with a line
    feed, whatever the nesting: fragments put one after the other make
    whole lines. *)
Theorem add_property_ends_with_line_feed (v : pyval) :
  forall prop_name indent_level s,
    add_property prop_name v indent_level = Ok s ->
    exists t, s = t ++ nl.
Proof.
  induction v as [v Hv | d IH] using descriptor_ind; intros prop_name indent_level s H.
  - rewrite add_property_not_dict in H by exact Hv. discriminate.
  - rewrite add_property_unfold in H.
    apply bind_Ok_inv in H as (description & _ & H).
    apply bind_Ok_inv in H as (type & _ & H).
    apply bind_Ok_inv in H as (items & Hi & H).
    apply bind_Ok_inv in H as (nested & Hn & H).
    injection H as <-.
    apply ends_nl_app_whole.
    { unfold head_lines. ends_nl fail. }
    apply whole_lines_app.
    { unfold default_lines. destruct (Dict.lookup "default" d) as [dv |]; [| now left].
      right. ends_nl fail. }
    apply whole_lines_app; [exact (items_lines_whole _ _ _ _ Hi) |].
    unfold properties_lines in Hn.
    destruct (eq_str type "object"); [| injection Hn as <-; now left].
    destruct (Dict.lookup "properties" d) as [[| | | | | | ps] |] eqn:Ep;
      try discriminate; [| injection Hn as <-; now left].
    destruct (concat_items _ ps) as [r | e] eqn:Hr; [| discriminate].
    cbn [bind] in Hn. injection Hn as <-.
    apply concat_items_Ok_inv in Hr as (blocks & HF & ->).
    assert (Hblocks : whole_lines (concat_blocks blocks)).
    { apply concat_blocks_whole. specialize (IH ps eq_refl). clear Ep.
      induction HF as [| [k x] b tl bs Hb _ IHF]; constructor.
      - inversion IH as [| ? ? Hx _]; subst. exact (Hx _ _ _ Hb).
      - apply IHF. now inversion IH. }
    right. ends_nl ltac:(exact Hblocks).
Qed.

(** X6.  The block number is written in the header only: whether
    build_configuration_schema fails, and with which exception, does not
    depend on it, and two block numbers give documents that differ in
    their headers alone. *)
Theorem build_configuration_schema_block_number (n m : Z)
  (properties : list (string * pyval)) :
  (forall e,
      build_configuration_schema n properties = Err e ->
      build_configuration_schema m properties = Err e)
  /\ (forall s,
         build_configuration_schema n properties = Ok s ->
         exists body,
           s = schema_header n ++ body
           /\ build_configuration_schema m properties = Ok (schema_header m ++ body)).
Proof.
  unfold build_configuration_schema.
  destruct (concat_items _ properties) as [r | e0]; simpl; split.
  - discriminate.
  - intros s [= <-]. eauto.
  - intros e [= <-]. reflexivity.
  - discriminate.
Qed.

(** X7.  For two mappings with no key in common, the document of the
    mapping that holds the entries of the first followed by those of the
    second is the header followed by the property blocks of the first and
    then those of the second. *)
Theorem build_configuration_schema_app (n : Z) (ps1 ps2 : list (string * pyval))
  (body1 body2 : string) :
  NoDup (keys_of (ps1 ++ ps2)%list) ->
  build_configuration_schema n ps1 = Ok (schema_header n ++ body1) ->
  build_configuration_schema n ps2 = Ok (schema_header n ++ body2) ->
  build_configuration_schema n (ps1 ++ ps2)%list
  = Ok (schema_header n ++ body1 ++ body2).
Proof.
  intros _. unfold build_configuration_schema. rewrite concat_items_app.
  destruct (concat_items _ ps1) as [r1 | e]; [| discriminate].
  destruct (concat_items _ ps2) as [r2 | e]; [| discriminate].
  simpl. intros [= H1] [= H2].
  apply str_app_inv_head in H1, H2. now subst.
Qed.

(** X8.  build_configuration_schema stops at the first property, in the
    order of the mapping, that add_property rejects: its exception is the
    result, whatever comes after it. *)
Theorem build_configuration_schema_first_error (n : Z)
  (accepted rest : list (string * pyval)) (name : string) (v : pyval) (e : pyerr) :
  Forall (fun kv => is_ok (add_property (fst kv) (snd kv) 1) = true) accepted ->
  add_property name v 1 = Err e ->
  build_configuration_schema n (accepted ++ (name, v) :: rest)%list = Err e.
Proof.
  intros Hacc He. unfold build_configuration_schema. rewrite concat_items_app.
  assert (Hok : exists r,
             concat_items (fun k x => add_property k x 1) accepted = Ok r).
  { induction Hacc as [| [k x] tl Hk _ (r & IH)]; simpl; [eauto |].
    simpl in Hk. destruct (add_property k x 1) as [s |]; [| discriminate].
    rewrite IH. simpl. eauto. }
  destruct Hok as (r & ->). simpl. now rewrite He.
Qed.

(** ** get_timing_from_metadata *)

Section TimingMore.
Context {ops : TimeOps}.

Lemma append4_assoc {A B C D : Type} (s1 s2 s3 : list A * list B * list C * list D) :
  append4 (append4 s1 s2) s3 = append4 s1 (append4 s2 s3).
Proof.
  destruct s1 as [[[a1 b1] c1] d1], s2 as [[[a2 b2] c2] d2], s3 as [[[a3 b3] c3] d3].
  simpl. now rewrite <- !app_assoc.
Qed.

Lemma append4_nil_r {A B C D : Type} (s : list A * list B * list C * list D) :
  append4 s ([], [], [], []) = s.
Proof. destruct s as [[[a b] c] d]. simpl. now rewrite !app_nil_r. Qed.

(** A loop whose body only appends to the four lists gives, from any
    lists, these lists followed by what it gives from empty lists. *)
Lemma for_each_appends {X A B C D : Type}
  (body : X -> list A * list B * list C * list D
          -> result (list A * list B * list C * list D)) :
  (forall x s, body x s = (s' <- body x ([], [], [], []) ;; Ok (append4 s s'))) ->
  forall l s,
    for_each l body s = (s' <- for_each l body ([], [], [], []) ;; Ok (append4 s s')).
Proof.
  intros Hbody l. induction l as [| x tl IH]; intros s.
  - simpl. now rewrite append4_nil_r.
  - cbn [for_each]. rewrite (Hbody x s).
    destruct (body x ([], [], [], [])) as [s1 | e]; cbn [bind]; [| reflexivity].
    rewrite (IH (append4 s s1)), (IH s1).
    destruct (for_each tl body ([], [], [], [])) as [s2 | e]; cbn [bind]; [| reflexivity].
    now rewrite append4_assoc.
Qed.

Lemma record_step_appends (v : TaskMetadata) (st : task_state) :
  record_step v st = (s' <- record_step v ([], [], [], []) ;; Ok (append4 st s')).
Proof.
  destruct st as [[[jobs sl] stl] dur]. unfold record_step.
  destruct (quantum_arrays v) as [arrs |]; [| reflexivity]. cbn [bind].
  destruct (select_timing arrs) as [[[start stop] |] | e]; cbn [bind];
    [| simpl; now rewrite !app_nil_r | reflexivity].
  destruct (first_key (metadata_keys v)) as [name | e]; cbn [bind]; [| reflexivity].
  destruct (duration_of start stop) as [d | e]; reflexivity.
Qed.

Lemma task_step_appends (kvv : string * list TaskMetadata) (st : timing) :
  task_step kvv st = (s' <- task_step kvv ([], [], [], []) ;; Ok (append4 st s')).
Proof.
  destruct st as [[[jobs fj] lj] gj]. unfold task_step. cbv beta iota.
  assert (E : for_each (snd kvv) record_step (jobs, [], [], [])
              = (s' <- for_each (snd kvv) record_step ([], [], [], []) ;;
                 Ok (append4 (jobs, [], [], []) s')))
    by exact (for_each_appends record_step record_step_appends (snd kvv)
                (jobs, [], [], [])).
  rewrite E. clear E.
  destruct (for_each (snd kvv) record_step ([], [], [], [])) as [[[[j sl] stl] dur] | e];
    cbn [bind append4 app]; [| reflexivity].
  destruct (py_min str_lt sl) as [first | e]; cbn [bind]; [| reflexivity].
  destruct (py_max str_gt stl) as [last | e]; cbn [bind]; [| reflexivity].
  destruct (py_max float_gt dur) as [longest | e]; reflexivity.
Qed.

(** X9.  Tasks are handled one after the other and independently: for two
    mappings with no task name in common, the result for the mapping that
    holds the tasks of the first followed by those of the second is, list
    by list, the result for the first followed by the result for the
    second. *)
Theorem get_timing_from_metadata_app (md1 md2 : list (string * list TaskMetadata))
  (r1 r2 : timing) :
  NoDup (keys_of (md1 ++ md2)%list) ->
  get_timing_from_metadata md1 = Ok r1 ->
  get_timing_from_metadata md2 = Ok r2 ->
  get_timing_from_metadata (md1 ++ md2)%list = Ok (append4 r1 r2).
Proof.
  unfold get_timing_from_metadata. intros _ H1 H2.
  rewrite for_each_app, H1. cbn [bind].
  assert (E : for_each md2 task_step r1
              = (s' <- for_each md2 task_step ([], [], [], []) ;; Ok (append4 r1 s')))
    by exact (for_each_appends task_step task_step_appends md2 r1).
  rewrite E, H2. reflexivity.
Qed.

Lemma task_step_inv (k : string) (vv : list TaskMetadata) (jobs : list job)
  (fj lj : list string) (gj : list float) (st' : timing) :
  task_step (k, vv) (jobs, fj, lj, gj) = Ok st' ->
  exists js first last longest,
    st' = ((jobs ++ js)%list, (fj ++ [first])%list, (lj ++ [last])%list,
           (gj ++ [longest])%list)
    /\ map (fun j : job => (snd (fst j), snd j)) js = instances vv.
Proof.
  unfold task_step. cbn [snd]. intros H.
  apply bind_Ok_inv in H as ([[[jobs' sl] stl] dur] & Hloop & H).
  apply bind_Ok_inv in H as (first & _ & H).
  apply bind_Ok_inv in H as (last & _ & H).
  apply bind_Ok_inv in H as (longest & _ & H). injection H as <-.
  apply inner_loop_lists in Hloop as (_ & _ & js & ds & -> & _ & Hjs & _).
  exists js, first, last, longest. auto.
Qed.

Lemma outer_loop_shape (task_md : list (string * list TaskMetadata)) :
  forall jobs fj lj gj jobs' fj' lj' gj',
    for_each task_md task_step (jobs, fj, lj, gj) = Ok (jobs', fj', lj', gj') ->
    length fj' = length fj + length task_md
    /\ length lj' = length lj + length task_md
    /\ length gj' = length gj + length task_md
    /\ exists js,
         jobs' = (jobs ++ js)%list
         /\ map (fun j : job => (snd (fst j), snd j)) js
            = flat_map (fun kvv => instances (snd kvv)) task_md.
Proof.
  induction task_md as [| [k vv] tl IH]; intros jobs fj lj gj jobs' fj' lj' gj' H.
  - injection H as <- <- <- <-. simpl. rewrite !Nat.add_0_r. repeat split.
    exists []. now rewrite app_nil_r.
  - cbn [for_each] in H. apply bind_Ok_inv in H as (st1 & H1 & H).
    apply task_step_inv in H1 as (js & first & last & longest & -> & Hjs).
    apply IH in H as (Hf & Hl & Hg & js' & -> & Hjs').
    rewrite length_app in Hf, Hl, Hg. simpl in Hf, Hl, Hg. simpl length.
    repeat split; try lia.
    exists (js ++ js')%list. rewrite <- app_assoc. split; [reflexivity |].
    cbn [flat_map snd]. now rewrite map_app, Hjs, Hjs'.
Qed.

(** X11.  On success the three per-task lists have one value per task of
    the mapping, and the flat jobs list has one entry per record that was
    not skipped, with its start and stop, task after task and record
    after record. *)
Theorem get_timing_from_metadata_shape (task_md : list (string * list TaskMetadata))
  (jobs : list job) (first_job last_job : list string) (longest_job : list float) :
  get_timing_from_metadata task_md = Ok (jobs, first_job, last_job, longest_job) ->
  length first_job = length task_md
  /\ length last_job = length task_md
  /\ length longest_job = length task_md
  /\ map (fun j : job => (snd (fst j), snd j)) jobs
     = flat_map (fun kvv => instances (snd kvv)) task_md.
Proof.
  unfold get_timing_from_metadata. intros H.
  apply outer_loop_shape in H as (Hf & Hl & Hg & js & -> & Hjs).
  simpl in *. auto.
Qed.

(** X12.  The key that selects a convention is not the key that is read:
    a record with 'startUtc' but without 'prepUtc' raises
    KeyError('prepUtc'), and one with 'runQuantumStartCpuTime' (and no
    'startUtc') but without 'runQuantumStartUtc' raises
    KeyError('runQuantumStartUtc'); the record is not skipped. *)
Theorem record_step_selected_array_missing (v : TaskMetadata)
  (arrs : list (string * list string)) (st : task_state) :
  quantum_arrays v = Some arrs ->
  (Dict.mem "startUtc" arrs = true ->
   Dict.lookup "prepUtc" arrs = None ->
   record_step v st = Err (KeyError "prepUtc"))
  /\ (Dict.mem "startUtc" arrs = false ->
      Dict.mem "runQuantumStartCpuTime" arrs = true ->
      Dict.lookup "runQuantumStartUtc" arrs = None ->
      record_step v st = Err (KeyError "runQuantumStartUtc")).
Proof.
  intros Hq. destruct st as [[[jobs sl] stl] dur]. unfold record_step. rewrite Hq.
  cbn [bind]. unfold select_timing. split.
  - intros -> Hp. change ("prep" ++ suffix) with "prepUtc".
    now rewrite (getitem_None _ _ Hp).
  - intros -> -> Hp. change ("runQuantumStart" ++ suffix) with "runQuantumStartUtc".
    now rewrite (getitem_None _ _ Hp).
Qed.

Lemma mem_setitem_same {V : Type} (k : string) (x : V) (d : list (string * V)) :
  Dict.mem k (Dict.setitem k x d) = true.
Proof. unfold Dict.mem. now rewrite lookup_setitem_same. Qed.

Lemma mem_setitem_other {V : Type} (k k0 : string) (x : V) (d : list (string * V)) :
  k <> k0 -> Dict.mem k0 (Dict.setitem k x d) = Dict.mem k0 d.
Proof. intros H. unfold Dict.mem. now rewrite lookup_setitem_other. Qed.

(** X13.  The arrays 'startUtc' and 'runQuantumStartCpuTime' are tested
    for presence and never read: when the key is there, putting any other
    values under it gives the same start and stop. *)
Theorem select_timing_presence_only (arrs : list (string * list string))
  (x : list string) :
  (Dict.mem "startUtc" arrs = true ->
   select_timing (Dict.setitem "startUtc" x arrs) = select_timing arrs)
  /\ (Dict.mem "runQuantumStartCpuTime" arrs = true ->
      select_timing (Dict.setitem "runQuantumStartCpuTime" x arrs)
      = select_timing arrs).
Proof.
  unfold select_timing, Dict.getitem, suffix. cbn [String.append]. split; intros H.
  - rewrite mem_setitem_same, H.
    rewrite (lookup_setitem_other "startUtc" "prepUtc") by discriminate.
    rewrite (lookup_setitem_other "startUtc" "endUtc") by discriminate.
    reflexivity.
  - rewrite mem_setitem_same, H.
    rewrite (mem_setitem_other "runQuantumStartCpuTime" "startUtc") by discriminate.
    rewrite (lookup_setitem_other "runQuantumStartCpuTime" "prepUtc") by discriminate.
    rewrite (lookup_setitem_other "runQuantumStartCpuTime" "endUtc") by discriminate.
    rewrite (lookup_setitem_other "runQuantumStartCpuTime" "runQuantumStartUtc")
      by discriminate.
    rewrite (lookup_setitem_other "runQuantumStartCpuTime" "runQuantumEndUtc")
      by discriminate.
    reflexivity.
Qed.

(** X14.  The label of a job is the first key of the record's metadata
    mapping, whatever the other keys; a record that is not skipped and has
    no metadata key raises IndexError. *)
Theorem record_step_label (v : TaskMetadata) (arrs : list (string * list string))
  (start stop : string) (jobs : list job) (sl stl : list string) (dur : list float) :
  quantum_arrays v = Some arrs ->
  select_timing arrs = Ok (Some (start, stop)) ->
  (metadata_keys v = [] -> record_step v (jobs, sl, stl, dur) = Err IndexError)
  /\ (forall name others d,
         metadata_keys v = name :: others ->
         duration_of start stop = Ok d ->
         record_step v (jobs, sl, stl, dur)
         = Ok ((jobs ++ [(name, start, stop)])%list, (sl ++ [start])%list,
               (stl ++ [stop])%list, (dur ++ [d])%list)).
Proof.
  intros Hq Hs. unfold record_step. rewrite Hq. cbn [bind]. rewrite Hs. cbn [bind].
  split.
  - intros ->. reflexivity.
  - intros name others d -> Hd. cbn [first_key bind]. now rewrite Hd.
Qed.

End TimingMore.

(** ** get_task_metadata *)

Section FetchMore.
Context {service : ButlerService}.

(** With a client opened, get_task_metadata is the pass over all the
    requests followed by the filling of the mapping. *)
Lemma get_task_metadata_run (butler : client) (butler_path collection : string)
  (task_list : list string) (visit_list detector_list : list Z) (log : list request) :
  Butler butler_path collection = Ok butler ->
  get_task_metadata butler_path collection task_list visit_list detector_list log
  = match fetch_seq butler (all_requests collection task_list visit_list detector_list)
    with
    | (Ok _, made) =>
        (Ok (fold_left
               (fun md task =>
                  Dict.setitem task
                    (records_for butler collection task visit_list detector_list) md)
               task_list []),
         (log ++ made)%list)
    | (Err e, made) => (Err e, (log ++ made)%list)
    end.
Proof.
  intros Hb. unfold get_task_metadata. unfold io_bind at 1. unfold io_lift.
  rewrite Hb. apply task_loop.
Qed.

Lemma keys_setitem {V : Type} (k : string) (v : V) (d : list (string * V)) :
  keys_of (Dict.setitem k v d)
  = if Dict.mem k d then keys_of d else (keys_of d ++ [k])%list.
Proof.
  unfold Dict.mem, keys_of. induction d as [| [k' v'] tl IH]; simpl; [reflexivity |].
  destruct (String.eqb k' k); simpl; [reflexivity |].
  rewrite IH. now destruct (Dict.lookup k tl).
Qed.

Lemma mem_In_keys {V : Type} (k : string) (d : list (string * V)) :
  Dict.mem k d = true <-> In k (keys_of d).
Proof.
  unfold Dict.mem, keys_of. induction d as [| [k' v'] tl IH]; simpl.
  - split; [discriminate | contradiction].
  - destruct (String.eqb_spec k' k) as [-> | Hne].
    + split; auto.
    + rewrite IH. split; [auto | intros [H | H]; [contradiction | exact H]].
Qed.

Lemma keys_fold_setitem {V : Type} (g : string -> V) (keys : list string) :
  forall md : list (string * V),
    NoDup (keys_of md) ->
    let md' := fold_left (fun md key => Dict.setitem key (g key) md) keys md in
    NoDup (keys_of md')
    /\ (forall k, In k (keys_of md') <-> In k (keys_of md) \/ In k keys)
    /\ (NoDup keys -> (forall k, In k keys -> ~ In k (keys_of md)) ->
        keys_of md' = (keys_of md ++ keys)%list).
Proof.
  induction keys as [| key keys IH]; intros md Hnd; cbn [fold_left]; cbv zeta.
  - split; [exact Hnd |]. split; [intros k; simpl; tauto |].
    intros _ _. now rewrite app_nil_r.
  - assert (Hk : keys_of (Dict.setitem key (g key) md)
                 = if Dict.mem key md then keys_of md else (keys_of md ++ [key])%list)
      by apply keys_setitem.
    assert (Hnd1 : NoDup (keys_of (Dict.setitem key (g key) md))).
    { rewrite Hk. destruct (Dict.mem key md) eqn:Em; [exact Hnd |].
      apply NoDup_app; [exact Hnd | repeat constructor; simpl; tauto |].
      intros a Ha [<- | []]. apply mem_In_keys in Ha. congruence. }
    assert (Hin1 : forall k, In k (keys_of (Dict.setitem key (g key) md))
                             <-> In k (keys_of md) \/ k = key).
    { intros k. rewrite Hk. destruct (Dict.mem key md) eqn:Em.
      - apply mem_In_keys in Em. split; [auto | intros [H | ->]; assumption].
      - rewrite in_app_iff. simpl. split; intros [H | H]; auto.
        destruct H as [<- | []]. auto. }
    destruct (IH _ Hnd1) as (Hnd' & Hin' & Heq'). split; [exact Hnd' |]. split.
    + intros k. rewrite Hin', Hin1. simpl. split; intros H; intuition auto.
    + intros Hkeys Hfresh. inversion Hkeys as [| ? ? Hnot Hkeys']; subst.
      rewrite Heq'; [| exact Hkeys' |].
      * rewrite Hk. destruct (Dict.mem key md) eqn:Em.
        -- apply mem_In_keys in Em. destruct (Hfresh key (or_introl eq_refl) Em).
        -- now rewrite <- app_assoc.
      * intros k Hkin Hk1. apply Hin1 in Hk1 as [Hk1 | ->].
        -- exact (Hfresh k (or_intror Hkin) Hk1).
        -- exact (Hnot Hkin).
Qed.

(** X15.  The mapping get_task_metadata returns has each task name once,
    also when task_list repeats a name: its keys are the names of
    task_list, and they are in the order of task_list when that list has
    no repetition. *)
Theorem get_task_metadata_keys (butler : client) (butler_path collection : string)
  (task_list : list string) (visit_list detector_list : list Z)
  (log log' : list request) (md : list (string * list TaskMetadata)) :
  Butler butler_path collection = Ok butler ->
  get_task_metadata butler_path collection task_list visit_list detector_list log
  = (Ok md, log') ->
  NoDup (keys_of md)
  /\ (forall task, In task (keys_of md) <-> In task task_list)
  /\ (NoDup task_list -> keys_of md = task_list).
Proof.
  intros Hb Hrun. rewrite (get_task_metadata_run butler) in Hrun by exact Hb.
  destruct (fetch_seq butler _) as [[recs | e] made]; [| discriminate].
  injection Hrun as <- _.
  destruct (keys_fold_setitem
              (fun task => records_for butler collection task visit_list detector_list)
              task_list [] (NoDup_nil _)) as (Hnd & Hin & Heq).
  split; [exact Hnd |]. split.
  - intros task. rewrite Hin. simpl. tauto.
  - intros Hnodup. apply Heq; [exact Hnodup | intros k _ []].
Qed.

Lemma requests_for_no_pairs (collection task : string) (visit_list detector_list : list Z) :
  visit_list = [] \/ detector_list = [] ->
  requests_for collection task visit_list detector_list = [].
Proof.
  unfold requests_for. intros [-> | ->]; [reflexivity |].
  induction visit_list as [| v vs IH]; [reflexivity | exact IH].
Qed.

Lemma all_requests_no_pairs (collection : string) (task_list : list string)
  (visit_list detector_list : list Z) :
  visit_list = [] \/ detector_list = [] ->
  all_requests collection task_list visit_list detector_list = [].
Proof.
  intros H. unfold all_requests. induction task_list as [| t tl IH]; [reflexivity |].
  cbn [flat_map]. now rewrite (requests_for_no_pairs _ _ _ _ H), IH.
Qed.

Lemma fold_setitem_head {V : Type} (g : string -> list V) (keys : list string) :
  (forall k, g k = []) ->
  forall (k0 : string) (rest : list (string * list V)),
  exists rest',
    fold_left (fun md key => Dict.setitem key (g key) md) keys ((k0, []) :: rest)
    = (k0, []) :: rest'.
Proof.
  intros Hg. induction keys as [| key keys IH]; intros k0 rest; cbn [fold_left].
  - eauto.
  - cbn [Dict.setitem]. rewrite Hg. destruct (String.eqb k0 key); apply IH.
Qed.

(** X16.  With no visit or no detector, get_task_metadata makes no request
    and gives every task an empty list; get_timing_from_metadata on that
    mapping, when there is a task, raises ValueError. *)
Theorem get_task_metadata_no_pairs (butler : client) (butler_path collection : string)
  (task_list : list string) (visit_list detector_list : list Z) (log : list request) :
  Butler butler_path collection = Ok butler ->
  visit_list = [] \/ detector_list = [] ->
  exists md,
    get_task_metadata butler_path collection task_list visit_list detector_list log
    = (Ok md, log)
    /\ (forall task, In task task_list -> Dict.lookup task md = Some [])
    /\ (task_list <> [] ->
        forall ops : TimeOps,
          get_timing_from_metadata (ops := ops) md = Err ValueError).
Proof.
  intros Hb Hnone.
  assert (Hg : forall task,
             records_for butler collection task visit_list detector_list = []).
  { intros task. unfold records_for.
    now rewrite (requests_for_no_pairs _ _ _ _ Hnone). }
  eexists. split; [| split].
  - rewrite (get_task_metadata_run butler) by exact Hb.
    rewrite (all_requests_no_pairs _ _ _ _ Hnone). cbn [fetch_seq].
    now rewrite app_nil_r.
  - intros task Hin. rewrite lookup_fold_setitem.
    destruct (in_dec string_dec task task_list); [| contradiction].
    now rewrite Hg.
  - intros Hne ops. destruct task_list as [| t0 tl]; [contradiction |].
    cbn [fold_left Dict.setitem]. rewrite Hg.
    destruct (fold_setitem_head
                (fun task => records_for butler collection task visit_list detector_list)
                tl Hg t0 []) as (rest' & ->).
    reflexivity.
Qed.

Lemma length_all_requests (collection : string) (task_list : list string)
  (visit_list detector_list : list Z) :
  length (all_requests collection task_list visit_list detector_list)
  = length task_list * (length visit_list * length detector_list).
Proof.
  unfold all_requests. induction task_list as [| t tl IH]; [reflexivity |].
  cbn [flat_map]. rewrite length_app, length_requests_for, IH. reflexivity.
Qed.

Lemma fetch_seq_made (butler : client) (rqs : list request) :
  forall r made,
    fetch_seq butler rqs = (r, made) ->
    length made <= length rqs /\ (is_ok r = true -> made = rqs).
Proof.
  induction rqs as [| rq tl IH]; simpl; intros r made H.
  - injection H as <- <-. auto.
  - destruct (butler_get butler rq) as [x | e].
    + destruct (fetch_seq butler tl) as [[recs | e] made'] eqn:E;
        injection H as <- <-; destruct (IH _ _ eq_refl) as [Hle Heq]; simpl.
      * split; [lia |]. intros _. now rewrite (Heq eq_refl).
      * split; [lia | discriminate].
    + injection H as <- <-. simpl. split; [lia | discriminate].
Qed.

(** X17.  get_task_metadata makes at most
    length task_list * length visit_list * length detector_list requests,
    and exactly that many when it returns a mapping. *)
Theorem get_task_metadata_request_count (butler : client)
  (butler_path collection : string) (task_list : list string)
  (visit_list detector_list : list Z) (log log' : list request)
  (r : result (list (string * list TaskMetadata))) :
  Butler butler_path collection = Ok butler ->
  get_task_metadata butler_path collection task_list visit_list detector_list log
  = (r, log') ->
  exists made,
    log' = (log ++ made)%list
    /\ length made <= length task_list * (length visit_list * length detector_list)
    /\ (is_ok r = true ->
        length made = length task_list * (length visit_list * length detector_list)).
Proof.
  intros Hb Hrun. rewrite (get_task_metadata_run butler) in Hrun by exact Hb.
  destruct (fetch_seq butler _) as [r0 made] eqn:E.
  destruct (fetch_seq_made _ _ _ _ E) as [Hle Heq].
  rewrite length_all_requests in Hle.
  exists made. destruct r0 as [recs | e]; injection Hrun as <- <-.
  - split; [reflexivity |]. split; [exact Hle |].
    intros _. rewrite (Heq eq_refl). apply length_all_requests.
  - split; [reflexivity |]. split; [exact Hle | discriminate].
Qed.

End FetchMore.

(** ** The further properties at the examples *)

Lemma add_property_reads_five_keys_witness :
  agree_on descriptor_keys ex_string (("enum", PyList [PyStr "r"; PyStr "i"]) :: ex_string)
  /\ add_property "filter" (PyDict (("enum", PyList [PyStr "r"; PyStr "i"]) :: ex_string)) 1
     = add_property "filter" (PyDict ex_string) 1.
Proof.
  assert (H : agree_on descriptor_keys ex_string
                (("enum", PyList [PyStr "r"; PyStr "i"]) :: ex_string)).
  { intros k [<- | [<- | [<- | [<- | [<- | []]]]]]; reflexivity. }
  split; [exact H |].
  exact (add_property_reads_five_keys "filter" ex_string _ 1 H).
Defined.

Lemma add_property_container_keys_by_type_witness :
  Dict.lookup "type" ex_string = Some (PyStr "string")
  /\ add_property "filter" (PyDict (Dict.setitem "items" (PyInt 3) ex_string)) 1
     = add_property "filter" (PyDict ex_string) 1.
Proof.
  split; [reflexivity |].
  exact (proj1 (add_property_container_keys_by_type "filter" ex_string 1
                  (PyStr "string") (PyInt 3) eq_refl) eq_refl).
Defined.

Lemma add_property_malformed_container_witness :
  add_property "values"
    (PyDict [("description", PyStr "Values"); ("type", PyStr "array");
             ("items", PyDict [("minimum", PyInt 0)])]) 1
  = Err (KeyError "type").
Proof.
  exact (proj1 (add_property_malformed_container "values"
                  [("description", PyStr "Values"); ("type", PyStr "array");
                   ("items", PyDict [("minimum", PyInt 0)])] 1 (PyStr "Values") eq_refl)
           [("minimum", PyInt 0)] eq_refl eq_refl eq_refl).
Defined.

Lemma add_property_name_only_in_first_line_witness :
  exists body,
    add_property "filter" (PyDict ex_string) 1 = Ok ("  filter:" ++ nl ++ body)
    /\ add_property "band" (PyDict ex_string) 1 = Ok ("  band:" ++ nl ++ body).
Proof.
  destruct (add_property_name_only_in_first_line "filter" (PyDict ex_string) 1 _ eq_refl)
    as (body & _ & Hother).
  exists body. split; [exact (Hother "filter") | exact (Hother "band")].
Defined.

Lemma add_property_ends_with_line_feed_witness :
  exists s t, add_property "offsets" (PyDict ex_object) 1 = Ok s /\ s = t ++ nl.
Proof.
  destruct (add_property_ends_with_line_feed (PyDict ex_object) "offsets" 1 _ eq_refl)
    as (t & Ht).
  eexists. exists t. split; [reflexivity | exact Ht].
Defined.

Lemma build_configuration_schema_block_number_witness :
  exists body,
    build_configuration_schema 3 [("filter", PyDict ex_string)]
    = Ok (schema_header 3 ++ body)
    /\ build_configuration_schema 7 [("filter", PyDict ex_string)]
       = Ok (schema_header 7 ++ body).
Proof.
  destruct (proj2 (build_configuration_schema_block_number 3 7
                     [("filter", PyDict ex_string)]) _ eq_refl) as (body & Hs & Hm).
  exists body. split; [| exact Hm]. rewrite <- Hs. reflexivity.
Defined.

Lemma build_configuration_schema_app_witness :
  exists body1 body2,
    build_configuration_schema 3 [("filter", PyDict ex_string)]
    = Ok (schema_header 3 ++ body1)
    /\ build_configuration_schema 3 [("values", PyDict ex_array)]
       = Ok (schema_header 3 ++ body2)
    /\ build_configuration_schema 3
         [("filter", PyDict ex_string); ("values", PyDict ex_array)]
       = Ok (schema_header 3 ++ body1 ++ body2).
Proof.
  exists (match add_property "filter" (PyDict ex_string) 1 with Ok s => s | Err _ => "" end).
  exists (match add_property "values" (PyDict ex_array) 1 with Ok s => s | Err _ => "" end).
  split; [reflexivity |]. split; [reflexivity |].
  apply (build_configuration_schema_app 3 [("filter", PyDict ex_string)]
           [("values", PyDict ex_array)]); [| reflexivity | reflexivity].
  constructor; [simpl; intros [H | []]; discriminate H |].
  constructor; [simpl; tauto | constructor].
Defined.

Lemma build_configuration_schema_first_error_witness :
  build_configuration_schema 3
    [("filter", PyDict ex_string); ("bad", PyDict [("type", PyStr "number")]);
     ("values", PyInt 3)]
  = Err (KeyError "description").
Proof.
  apply (build_configuration_schema_first_error 3 [("filter", PyDict ex_string)]
           [("values", PyInt 3)] "bad" (PyDict [("type", PyStr "number")])).
  - repeat constructor.
  - reflexivity.
Defined.

Lemma get_timing_from_metadata_app_witness :
  get_timing_from_metadata (ops := int_days) [("isr", [rec_a1]); ("calc", [rec_b])]
  = Ok ([("isr:1", "101+00:00", "105+00:00"); ("calc:1", "200+00:00", "203+00:00")],
        ["101+00:00"; "200+00:00"], ["105+00:00"; "203+00:00"],
        [345600%Z; 259200%Z]).
Proof.
  assert (Hkeys : NoDup (keys_of ([("isr", [rec_a1])] ++ [("calc", [rec_b])])%list)).
  { constructor; [simpl; intros [H | []]; discriminate H |].
    constructor; [simpl; tauto | constructor]. }
  exact (get_timing_from_metadata_app (ops := int_days) [("isr", [rec_a1])]
           [("calc", [rec_b])] _ _ Hkeys eq_refl eq_refl).
Defined.

Lemma get_timing_from_metadata_shape_witness :
  exists r,
    get_timing_from_metadata (ops := int_days)
      [("isr", [rec_a1; rec_noop]); ("calc", [rec_b])] = Ok r
    /\ length (snd (fst (fst r))) = 2.
Proof.
  eexists. split; [reflexivity |].
  exact (proj1 (get_timing_from_metadata_shape (ops := int_days)
                  [("isr", [rec_a1; rec_noop]); ("calc", [rec_b])] _ _ _ _ eq_refl)).
Defined.

Lemma record_step_selected_array_missing_witness :
  record_step (ops := int_days)
    {| quantum_arrays := Some [("startUtc", ["100+00:00"]); ("endUtc", ["101+00:00"])];
       metadata_keys := ["isr:1"] |}
    ([], [], [], [])
  = Err (KeyError "prepUtc").
Proof.
  exact (proj1 (record_step_selected_array_missing (ops := int_days)
                  {| quantum_arrays :=
                       Some [("startUtc", ["100+00:00"]); ("endUtc", ["101+00:00"])];
                     metadata_keys := ["isr:1"] |}
                  _ ([], [], [], []) eq_refl) eq_refl eq_refl).
Defined.

Lemma select_timing_presence_only_witness :
  Dict.mem "startUtc" arrs_a1 = true
  /\ select_timing (Dict.setitem "startUtc" [] arrs_a1) = select_timing arrs_a1.
Proof.
  split; [reflexivity |].
  exact (proj1 (select_timing_presence_only arrs_a1 []) eq_refl).
Defined.

Lemma record_step_label_witness :
  record_step (ops := int_days) rec_a1 ([], [], [], [])
  = Ok ([("isr:1", "101+00:00", "105+00:00")], ["101+00:00"], ["105+00:00"],
        [345600%Z]).
Proof.
  exact (proj2 (record_step_label (ops := int_days) rec_a1 arrs_a1 _ _ [] [] [] []
                  eq_refl eq_refl) "isr:1" ["quantum"] _ eq_refl eq_refl).
Defined.

Lemma get_task_metadata_keys_witness :
  exists md log',
    get_task_metadata (service := toy_service) "/repo" "run" ["isr"; "calc"; "isr"]
      [10]%Z [1]%Z [] = (Ok md, log')
    /\ NoDup (keys_of md)
    /\ length log' = 3.
Proof.
  eexists. eexists. split; [reflexivity |]. split; [| reflexivity].
  exact (proj1 (get_task_metadata_keys (service := toy_service) tt "/repo" "run"
                  ["isr"; "calc"; "isr"] [10]%Z [1]%Z [] _ _ eq_refl eq_refl)).
Defined.

Lemma get_task_metadata_no_pairs_witness :
  exists md,
    get_task_metadata (service := toy_service) "/repo" "run" ["isr"] [] [1; 2]%Z []
    = (Ok md, [])
    /\ get_timing_from_metadata (ops := int_days) md = Err ValueError.
Proof.
  destruct (get_task_metadata_no_pairs (service := toy_service) tt "/repo" "run" ["isr"]
              [] [1; 2]%Z [] eq_refl (or_introl eq_refl)) as (md & Hrun & _ & Htiming).
  exists md. split; [exact Hrun |]. apply Htiming. discriminate.
Defined.

Lemma get_task_metadata_request_count_witness :
  exists made,
    snd (get_task_metadata (service := toy_service) "/repo" "run" ["isr"] [10; 20]%Z
           [1; 2]%Z [])
    = ([] ++ made)%list
    /\ length made = 4.
Proof.
  destruct (get_task_metadata_request_count (service := toy_service) tt "/repo" "run"
              ["isr"] [10; 20]%Z [1; 2]%Z [] _ _ eq_refl eq_refl)
    as (made & Hlog & _ & Hlen).
  exists made. split; [rewrite <- Hlog; reflexivity | exact (Hlen eq_refl)].
Defined.
